(** * The bumper/whisker sensor array of Stage (libstage/model_bumper.cc)

    A shallow embedding of [ModelBumper]: its constructor, [Startup],
    [Shutdown], [Load], [bumper_match] and [Update], with the properties
    of the transducer array, the probe geometry, the sample buffer and
    the lifecycle stated and proved over it.

    Numbers: [meters_t], [radians_t] and [watts_t] are C++ [double]s; they
    are embedded as the real numbers [R], so that [cos] and [sin] are the
    mathematical functions and [M_PI] is [PI].  The counter
    [bumper_count] is an unsigned 32-bit integer, embedded as a [Z] with
    the wrap-around of the conversion from [int] written out. *)

From Stdlib Require Import Reals Lra ZArith Lia.
From stdpp Require Import base numbers list strings pretty.

Local Open Scope Z_scope.

(** ** Geometry *)

(** [Pose]: position and heading, all four fields are [double]. *)
Record Pose : Type := mkPose { pose_x : R; pose_y : R; pose_z : R; pose_a : R }.

(** [point_t]: a point of the plane. *)
Record point_t : Type := mkPoint { pt_x : R; pt_y : R }.

(** ** Errors

    [Load] asserts; [Update] indexes two heap arrays.  A failed assertion
    and an access past the end of an array are the two ways in which the
    code does not return normally. *)
Inductive fault : Type :=
| AssertionFailed
| OutOfBounds.

Inductive result (A : Type) : Type :=
| Ok (a : A)
| Fault (f : fault).
Arguments Ok {A} a.
Arguments Fault {A} f.

(** The error monad, with stdpp's [x ← r; k] notation. *)
#[global] Instance result_ret : MRet result := λ A a, Ok a.
#[global] Instance result_bind : MBind result := λ A B k r,
  match r with
  | Ok a => k a
  | Fault f => Fault f
  end.

(** [a[i]] on a heap array of [length a] cells. *)
Definition index {A} (a : list A) (i : nat) : result A :=
  match a !! i with
  | Some x => Ok x
  | None => Fault OutOfBounds
  end.

(** [a[i] = x] (or a field of it) on a heap array. *)
Definition store {A} (a : list A) (i : nat) (x : A) : result (list A) :=
  if decide (i < length a)%nat then Ok (<[i := x]> a) else Fault OutOfBounds.

(** ** Counting loops *)

(** [for( unsigned int i = 0; i < count; i++ ) body]: [n] iterations are
    left, the next one at index [i]. *)
Fixpoint loop_from {S : Type} (n i : nat) (body : nat → S → result S)
    (s : S) : result S :=
  match n with
  | O => Ok s
  | Datatypes.S n' => s' ← body i s; loop_from n' (Datatypes.S i) body s'
  end.

Definition for_upto {S : Type} (count : Z) (body : nat → S → result S)
    (s : S) : result S :=
  loop_from (Z.to_nat count) 0 body s.

(** A loop that rewrites each cell of an array from its old content. *)
Definition rewrite_cell {A} (g : nat → A → A) (i : nat) (a : list A)
    : result (list A) :=
  b ← index a i; store a i (g i b).

(** ** Unsigned 32-bit counters

    [bumper_count] is declared in stage.hh, which is not part of the
    sources.  The code compares it with [unsigned int] loop counters,
    tests [bumper_count < 1] where a signed count would be tested against
    0, and casts it with [(int)bumper_count] to print it with [%d]: it is an
    unsigned counter, taken here at 32 bits. *)

Definition UINT32_MOD : Z := 2 ^ 32.

(** Conversion of an [int] to [unsigned int] on assignment. *)
Definition to_uint32 (z : Z) : Z := z mod UINT32_MOD.

(** What [printf("%d", i)] shows for an [unsigned int i]: the same 32 bits
    read as a signed [int]. *)
Definition as_int32 (u : Z) : Z :=
  if decide (u < 2 ^ 31) then u else u - UINT32_MOD.

(** ** The worldfile

    The [Worldfile] class (worldfile.hh) and its readers are not part of
    the sources.  The configuration arrives as already-parsed values keyed
    by property name; a reader returns the value stored under the name,
    and its default argument when the name is absent. *)

(** Modelled from the spec: the already-parsed value of a property, which
    worldfile.hh keeps as text: an integer, a length or angle, or a
    tuple of numbers. *)
Inductive wf_value : Type :=
| WfInt (n : Z)
| WfFloat (v : R)
| WfTuple (vs : list R).

(** Modelled from the spec: the properties of the model's entity in the
    [Worldfile], which is not part of the sources, in the order in which
    the file declares them. *)
Definition Worldfile : Type := list (string * wf_value).

(** Modelled from the spec: [Worldfile::GetProperty] is not part of the
    sources; the property declared under the name, if any. *)
Fixpoint GetProperty (wf : Worldfile) (name : string) : option wf_value :=
  match wf with
  | [] => None
  | (k, v) :: rest => if decide (k = name) then Some v else GetProperty rest name
  end.

(** Modelled from the spec: [Worldfile::PropertyExists] is not part of
    the sources; whether the entity declares the name. *)
Definition PropertyExists (wf : Worldfile) (name : string) : bool :=
  match GetProperty wf name with Some _ => true | None => false end.

(** Modelled from the spec: [Worldfile::ReadInt] is not part of the
    sources; the integer declared under the name, [value] when there is
    none. *)
Definition ReadInt (wf : Worldfile) (name : string) (value : Z) : Z :=
  match GetProperty wf name with Some (WfInt n) => n | _ => value end.

(** Modelled from the spec: [Worldfile::ReadLength] is not part of the
    sources; the length declared under the name, [value] when there is
    none. *)
Definition ReadLength (wf : Worldfile) (name : string) (value : R) : R :=
  match GetProperty wf name with Some (WfFloat v) => v | _ => value end.

(** Modelled from the spec: [Worldfile::ReadTupleLength] is not part of
    the sources; component [i] of the tuple declared under the name,
    [value] when there is none. *)
Definition ReadTupleLength (wf : Worldfile) (name : string) (i : nat) (value : R) : R :=
  match GetProperty wf name with
  | Some (WfTuple vs) => default value (vs !! i)
  | _ => value
  end.

(** Modelled from the spec: [Worldfile::ReadTupleAngle] is not part of
    the sources; component [i] of the tuple declared under the name, as an
    angle in radians, [value] when there is none. *)
Definition ReadTupleAngle (wf : Worldfile) (name : string) (i : nat) (value : R) : R :=
  match GetProperty wf name with
  | Some (WfTuple vs) => default value (vs !! i)
  | _ => value
  end.

(** [snprintf(key, sizeof(key), "bpose[%d]", i)] and
    [snprintf(key, sizeof(key), "blength[%d]", i)] for the [unsigned int]
    loop counter [i]. *)
Definition pose_key (k : Z) : string := "bpose[" +:+ pretty k +:+ "]".

Definition length_key (k : Z) : string := "blength[" +:+ pretty k +:+ "]".

Definition bpose_key (i : nat) : string := pose_key (as_int32 (Z.of_nat i)).

Definition blength_key (i : nat) : string := length_key (as_int32 (Z.of_nat i)).

(** The properties of a bumper entity that declares a count, a common
    length, and lengths and poses for some indices. *)
Definition length_override (o : Z * R) : string * wf_value :=
  (length_key o.1, WfFloat o.2).

Definition pose_override (o : Z * Pose) : string * wf_value :=
  (pose_key o.1,
   WfTuple [pose_x o.2; pose_y o.2; pose_z o.2; pose_a o.2]).

Definition bumper_properties (N : Z) (L : R) (lens : list (Z * R))
    (poses : list (Z * Pose)) : Worldfile :=
  ("bcount", WfInt N) :: ("blength", WfFloat L) ::
  (length_override <$> lens) ++ (pose_override <$> poses).

(** ** The model hierarchy *)

#[local] Set Warnings "-register-all".

(** Modelled from the spec: the [Model] base class (stage.hh, model.cc) is
    not part of the sources.  A model has an identity, the capability
    flag [vis.obstacle_return] and an owning parent (nullable); the chain
    of parents is finite, so a model value carries its chain. *)
Inductive Model : Type :=
| mkModel (id : nat) (obstacle_return : bool) (parent : option Model).

Definition model_id (m : Model) : nat :=
  match m with mkModel id _ _ => id end.

Definition vis_obstacle_return (m : Model) : bool :=
  match m with mkModel _ o _ => o end.

Definition model_parent (m : Model) : option Model :=
  match m with mkModel _ _ p => p end.

(** Modelled from the spec: the ancestor chain of a [Model], which is
    not part of the sources; the parents, nearest first. *)
Fixpoint ancestors (m : Model) : list Model :=
  match m with
  | mkModel _ _ None => []
  | mkModel _ _ (Some p) => p :: ancestors p
  end.

(** Modelled from the spec: pointer equality of [Model]s, which are not
    part of the sources; two references denote the same model when the
    identities agree. *)
Definition same_model (a b : Model) : bool :=
  bool_decide (model_id a = model_id b).

(** Modelled from the spec: [Model::IsRelated] is not part of the
    sources.  [related(a, b)] is true if [a] is [b], an ancestor of [b] or
    a descendant of [b], found by walking the ancestor chain in both
    directions. *)
Definition IsRelated (this that : Model) : bool :=
  same_model this that
  || existsb (same_model this) (ancestors that)
  || existsb (same_model that) (ancestors this).

(** The relations the spec names, from the parent link alone. *)
Inductive ancestor_of : Model → Model → Prop :=
| ancestor_parent m p :
    model_parent m = Some p → ancestor_of p m
| ancestor_up m p a :
    model_parent m = Some p → ancestor_of a p → ancestor_of a m.

(** [is_self c m], [is_ancestor c m] and [is_descendant c m]: the
    candidate reference [c] denotes [m] itself, one of its ancestors, one
    of its descendants. *)
Definition is_self (c m : Model) : Prop := model_id c = model_id m.

Definition is_ancestor (c m : Model) : Prop :=
  ∃ a, ancestor_of a m ∧ model_id a = model_id c.

Definition is_descendant (c m : Model) : Prop :=
  ∃ a, ancestor_of a c ∧ model_id a = model_id m.

Definition related (c m : Model) : Prop :=
  is_self c m ∨ is_ancestor c m ∨ is_descendant c m.

(** Induction along the chain of parents. *)
Fixpoint Model_chain_ind (P : Model → Prop)
    (Hroot : ∀ id o, P (mkModel id o None))
    (Hchild : ∀ id o p, P p → P (mkModel id o (Some p)))
    (m : Model) : P m :=
  match m with
  | mkModel id o None => Hroot id o
  | mkModel id o (Some p) => Hchild id o p (Model_chain_ind P Hroot Hchild p)
  end.

(** ** The raytrace engine *)

(** [RaytraceResult]: the hit model ([None] for the null pointer), the
    pose of the hit and its range. *)
Record RaytraceResult : Type := mkRay {
  ray_pose : Pose;
  ray_mod : option Model;
  ray_range : R
}.

(** The callback type of a raytrace: a function of the candidate, the
    finder and an opaque argument to [bool]; the bumper passes [NULL] as
    the argument, which [bumper_match] ignores. *)
Definition ray_test_func_t : Type := Model → Model → bool.

(** [bumper_match]: ignore myself, my children, and my ancestors. *)
Definition bumper_match (candidate finder : Model) : bool :=
  vis_obstacle_return candidate && negb (IsRelated candidate finder).

(** Modelled from the spec: an answer of the Spatial World Index, which
    is not part of the sources; where a ray enters the geometry of a
    model of the world. *)
Record crossing : Type := mkCrossing {
  cr_mod : Model;
  cr_range : R;
  cr_pose : Pose
}.

(** Modelled from the spec: the Spatial World Index is not part of the
    sources.  For a finder and a ray origin in the finder's frame it
    answers with the models the half-line meets, each with the distance
    from the origin and the pose of the intersection. *)
Definition SpatialIndex : Type := Model → Pose → list crossing.

#[global] Instance Rlt_decision (a b : R) : Decision (a < b)%R := Rlt_dec a b.
#[global] Instance Rle_decision (a b : R) : Decision (a <= b)%R := Rle_dec a b.

(** Modelled from the spec: the tie-break of the Spatial World Index,
    which is not part of the sources.  Strictly nearest range wins; of two
    crossings at the same range the one the index lists first. *)
Definition nearer (a b : crossing) : crossing :=
  if decide (cr_range a <= cr_range b)%R then a else b.

(** Modelled from the spec: the nearest of the crossings that the
    Spatial World Index, which is not part of the sources, answers
    with. *)
Fixpoint nearest (cs : list crossing) : option crossing :=
  match cs with
  | [] => None
  | c :: rest =>
      match nearest rest with
      | None => Some c
      | Some d => Some (nearer c d)
      end
  end.

(** Modelled from the spec: the candidates of a query of the raytrace
    engine, which is not part of the sources.  A ray cast for [range]
    sweeps the distances from 0 up to, and not including, [range] (a ray
    of range 0 has no extent); a candidate counts when the ray meets it
    there and the matcher accepts it. *)
Definition in_reach (finder : Model) (range : R) (matcher : ray_test_func_t)
    (c : crossing) : Prop :=
  (0 <= cr_range c < range)%R ∧ matcher (cr_mod c) finder = true.

#[global] Instance in_reach_decision finder range matcher c :
  Decision (in_reach finder range matcher c).
Proof. unfold in_reach. apply _. Defined.

(** Modelled from the spec: [Model::Raytrace] and the engine behind it
    are not part of the sources.  The query returns the geometrically
    nearest intersecting model for which the matcher holds, or no hit if
    none intersects within range; without a hit the result carries the
    origin and the full range. *)
Definition World_Raytrace (idx : SpatialIndex) (finder : Model) (pose : Pose)
    (range : R) (matcher : ray_test_func_t) : RaytraceResult :=
  match nearest (filter (in_reach finder range matcher) (idx finder pose)) with
  | Some c => mkRay (cr_pose c) (Some (cr_mod c)) (cr_range c)
  | None => mkRay pose None range
  end.

(** ** The bumper model *)

(** [bumper_config_t]: the pose of a transducer relative to its model and
    its length. *)
Record bumper_config_t : Type := mkConfig { cfg_pose : Pose; cfg_length : R }.

(** [bumper_sample_t]: [hit] is the model the transducer touches ([None]
    for the null pointer).  [hit_point] is a plain [point_t] field; [None]
    stands for a field that no [Update] has written since [new[]] made the
    cell, [Some p] for the point last stored in it. *)
Record bumper_sample_t : Type := mkSample {
  hit : option Model;
  hit_point : option point_t
}.

(** A block that [new bumper_sample_t[n]] returned: its identity and its
    cells. *)
Record sample_buffer : Type := mkBuffer {
  buf_id : nat;
  buf_cells : list bumper_sample_t
}.

(** A cell as [new[]] leaves it. *)
Definition fresh_sample : bumper_sample_t := mkSample None None.

(** What the base class [Model] contributes and the sources do not show:
    the rest of its state, its [Startup], [Shutdown], [Load] and [Update]
    (which act on that rest), the default-constructed [Pose] and the value
    an uninitialised [double] holds. *)
Class ModelBase : Type := {
  BaseState : Type;
  Model_Startup : BaseState → BaseState;
  Model_Shutdown : BaseState → BaseState;
  Model_Load : Worldfile → BaseState → BaseState;
  Model_Update : BaseState → BaseState;
  Pose_default : Pose;
  uninit_double : R
}.

(** The raytrace behind [Model::Raytrace(pose, range, func, arg)], with
    the calling model as finder. *)
Class Engine : Type := {
  Raytrace : Model → Pose → R → ray_test_func_t → RaytraceResult
}.

(** One ray cast as [Update] issues it. *)
Record cast : Type := mkCast { cast_pose : Pose; cast_range : R }.

(** [BUMPER_WATTS]: bumper power consumption. *)
Definition BUMPER_WATTS : R := 0.1%R.

(** The state of a [ModelBumper]: the model itself, the base-class part,
    the power draw that [SetWatts] writes, the three bumper fields, and
    the number of sample buffers handed out so far, from which [new[]]
    takes the identity of the next one. *)
Record ModelBumper `{ModelBase} : Type := mkBumper {
  self : Model;
  base : BaseState;
  watts : R;
  bumper_count : Z;
  bumpers : option (list bumper_config_t);
  samples : option sample_buffer;
  heap_next : nat
}.

Section Bumper.
Context `{MB : ModelBase}.

Definition set_base (b : BaseState) (m : ModelBumper) : ModelBumper :=
  mkBumper _ (self m) b (watts m) (bumper_count m) (bumpers m) (samples m)
           (heap_next m).

Definition SetWatts (w : R) (m : ModelBumper) : ModelBumper :=
  mkBumper _ (self m) (base m) w (bumper_count m) (bumpers m) (samples m)
           (heap_next m).

Definition set_array (n : Z) (bs : option (list bumper_config_t))
    (m : ModelBumper) : ModelBumper :=
  mkBumper _ (self m) (base m) (watts m) n bs (samples m) (heap_next m).

Definition set_samples (buf : option sample_buffer) (m : ModelBumper)
    : ModelBumper :=
  mkBumper _ (self m) (base m) (watts m) (bumper_count m) (bumpers m) buf
           (heap_next m).

(** [new bumper_sample_t[n]]: a block with a fresh identity. *)
Definition new_samples (n : Z) (m : ModelBumper)
    : sample_buffer * ModelBumper :=
  (mkBuffer (heap_next m) (replicate (Z.to_nat n) fresh_sample),
   mkBumper _ (self m) (base m) (watts m) (bumper_count m) (bumpers m)
            (samples m) (S (heap_next m))).

(** [new bumper_config_t[n]]. *)
Definition new_bumpers (n : Z) : list bumper_config_t :=
  replicate (Z.to_nat n) (mkConfig Pose_default uninit_double).

(** The constructor, on the model [me] and the base part [b] with power
    draw [w] that [Model]'s constructor and the calls of [SetGeom],
    [SetColor] and [RegisterOption] leave. *)
Definition ModelBumper_new (me : Model) (b : BaseState) (w : R)
    (next : nat) : ModelBumper :=
  mkBumper _ me b w 0 None None next.

Definition Startup (m : ModelBumper) : ModelBumper :=
  let m := set_base (Model_Startup (base m)) m in
  SetWatts BUMPER_WATTS m.

Definition Shutdown (m : ModelBumper) : ModelBumper :=
  let m := SetWatts 0%R m in
  let m := match samples m with
           | Some _ => set_samples None m
           | None => m
           end in
  set_base (Model_Shutdown (base m)) m.

(** The body of the first loop of [Load]. *)
Definition Load_common (common_length : R) (i : nat)
    (bs : list bumper_config_t) : result (list bumper_config_t) :=
  b ← index bs i;
  store bs i (mkConfig (cfg_pose b) common_length).

(** The body of the second loop of [Load]. *)
Definition Load_individual (wf : Worldfile) (i : nat)
    (bs : list bumper_config_t) : result (list bumper_config_t) :=
  b ← index bs i;
  let key := bpose_key i in
  let pose := mkPose (ReadTupleLength wf key 0 0%R)
                     (ReadTupleLength wf key 1 0%R)
                     (ReadTupleLength wf key 2 0%R)
                     (ReadTupleAngle wf key 3 0%R) in
  let key := blength_key i in
  store bs i (mkConfig pose (ReadLength wf key (cfg_length b))).

Definition Load (wf : Worldfile) (m : ModelBumper) : result ModelBumper :=
  m ← (if PropertyExists wf "bcount" then
         let count := to_uint32 (ReadInt wf "bcount" 0) in
         if decide (count > 0) then
           let bs := new_bumpers count in
           let common_length := ReadLength wf "blength" 0%R in
           bs ← for_upto count (Load_common common_length) bs;
           bs ← for_upto count (Load_individual wf) bs;
           Ok (set_array count (Some bs) m)
         else Fault AssertionFailed
       else Ok m);
  Ok (set_base (Model_Load wf (base m)) m).

Context `{EN : Engine}.

(** The body of the loop of [Update] for transducer [t]: the cells of
    the sample buffer and the casts issued so far are threaded
    through. *)
Definition Update_transducer (me : Model) (bs : list bumper_config_t)
    (t : nat) (st : list bumper_sample_t * list cast)
    : result (list bumper_sample_t * list cast) :=
  let '(cells, casts) := st in
  b ← index bs t;
  let a := (pose_a (cfg_pose b) + PI / 2)%R in
  let bpose :=
    mkPose (pose_x (cfg_pose b) - cfg_length b / 2 * cos a)%R
           (pose_y (cfg_pose b) - cfg_length b / 2 * sin a)%R
           (pose_z Pose_default)
           a in
  let ray := Raytrace me bpose (cfg_length b) bumper_match in
  s ← index cells t;
  let s := mkSample (ray_mod ray)
             (match ray_mod ray with
              | Some _ => Some (mkPoint (pose_x (ray_pose ray))
                                        (pose_y (ray_pose ray)))
              | None => hit_point s
              end) in
  cells ← store cells t s;
  Ok (cells, casts ++ [mkCast bpose (cfg_length b)]).

(** [Update] returns the new state and the casts it issued, in order. *)
Definition Update (m : ModelBumper) : result (ModelBumper * list cast) :=
  let m := set_base (Model_Update (base m)) m in
  match bumpers m with
  | None => Ok (m, [])
  | Some bs =>
      if decide (bumper_count m < 1) then Ok (m, [])
      else
        let '(buf, m) := match samples m with
                         | Some buf => (buf, m)
                         | None => new_samples (bumper_count m) m
                         end in
        '(cells, casts) ← for_upto (bumper_count m)
                            (Update_transducer (self m) bs)
                            (buf_cells buf, []);
        Ok (set_samples (Some (mkBuffer (buf_id buf) cells)) m, casts)
  end.

(** *** Update, step by step

    The pieces of [Load] and [Update] that the statements below name. *)

(** The transducer that [Load] configures at index [i] when the common
    length is [common]. *)
Definition loaded_transducer (wf : Worldfile) (common : R) (i : nat)
    : bumper_config_t :=
  mkConfig (mkPose (ReadTupleLength wf (bpose_key i) 0 0%R)
                   (ReadTupleLength wf (bpose_key i) 1 0%R)
                   (ReadTupleLength wf (bpose_key i) 2 0%R)
                   (ReadTupleAngle wf (bpose_key i) 3 0%R))
           (ReadLength wf (blength_key i) common).

(** The probe of a transducer: the sensor turned by a quarter turn and
    placed at one end of the strip. *)
Definition probe_pose (b : bumper_config_t) : Pose :=
  mkPose
    (pose_x (cfg_pose b) - cfg_length b / 2 * cos (pose_a (cfg_pose b) + PI / 2))%R
    (pose_y (cfg_pose b) - cfg_length b / 2 * sin (pose_a (cfg_pose b) + PI / 2))%R
    (pose_z Pose_default)
    (pose_a (cfg_pose b) + PI / 2)%R.

Definition probe_cast (b : bumper_config_t) : cast :=
  mkCast (probe_pose b) (cfg_length b).

(** The ray of transducer [b] of model [me]. *)
Definition probe_ray (me : Model) (b : bumper_config_t) : RaytraceResult :=
  Raytrace me (probe_pose b) (cfg_length b) bumper_match.

(** The cell of transducer [b] after its cast, from the cell before. *)
Definition sensed (me : Model) (b : bumper_config_t) (s : bumper_sample_t)
    : bumper_sample_t :=
  mkSample (ray_mod (probe_ray me b))
    (match ray_mod (probe_ray me b) with
     | Some _ => Some (mkPoint (pose_x (ray_pose (probe_ray me b)))
                               (pose_y (ray_pose (probe_ray me b))))
     | None => hit_point s
     end).

Definition sensed_cell (me : Model) (bs : list bumper_config_t)
    (cells : list bumper_sample_t) (k : nat) : option bumper_sample_t :=
  match bs !! k, cells !! k with
  | Some b, Some s => Some (sensed me b s)
  | _, _ => None
  end.

(** The three bumper fields hold an array of [n] transducers. *)
Definition configured (n : Z) (m : ModelBumper) : Prop :=
  bumper_count m = n ∧
  ∃ bs, bumpers m = Some bs ∧ length bs = Z.to_nat n.

(** The cells an [Update] works on: those of the buffer the model has,
    or those of the buffer it is about to allocate. *)
Definition cells_before (m : ModelBumper) : list bumper_sample_t :=
  match samples m with
  | Some buf => buf_cells buf
  | None => replicate (Z.to_nat (bumper_count m)) fresh_sample
  end.

End Bumper.

(** ** Settings and scenarios

    The base class reduced to nothing, a default pose at the origin, and
    worlds given by their spatial index. *)
Definition plain_base : ModelBase := {|
  BaseState := unit;
  Model_Startup := λ b, b;
  Model_Shutdown := λ b, b;
  Model_Load := λ _ b, b;
  Model_Update := λ b, b;
  Pose_default := mkPose 0 0 0 0;
  uninit_double := 0%R
|}.

(** The engine of a world. *)
Definition world_engine (idx : SpatialIndex) : Engine :=
  {| Raytrace := World_Raytrace idx |}.

(** The world without any model in the way. *)
Definition empty_world : SpatialIndex := λ _ _, [].

(** A robot and its bumper model. *)
Definition robot : Model := mkModel 1 true None.
Definition bumper_model : Model := mkModel 2 false (Some robot).

(** A single transducer at the local origin, 0.2 long. *)
Definition strip : bumper_config_t := mkConfig (mkPose 0 0 0 0) 0.2.

(** An obstacle that is no relative of the bumper, and a model mounted on
    the bumper. *)
Definition wall : Model := mkModel 7 true None.
Definition cover : Model := mkModel 3 true (Some bumper_model).

(** A world in which every ray meets the wall 0.05 from its origin. *)
Definition wall_world : SpatialIndex :=
  λ _ _, [mkCrossing wall 0.05 (mkPose 0 (-0.05) 0 0)].

(** A world in which every ray meets, nearest first, the bumper itself,
    the robot that carries it and the cover mounted on it. *)
Definition family_world : SpatialIndex :=
  λ _ _, [mkCrossing bumper_model 0 (mkPose 0 (-0.1) 0 0);
          mkCrossing robot 0.02 (mkPose 0 (-0.08) 0 0);
          mkCrossing cover 0.05 (mkPose 0 (-0.05) 0 0)].

(** The bumper of the scenarios, started and not yet updated. *)
Definition started_bumper : @ModelBumper plain_base :=
  mkBumper plain_base bumper_model tt BUMPER_WATTS 1 (Some [strip]) None 0.

(** The bumper after a tick in which the wall was hit, and after a
    further tick in which nothing was. *)
Definition bumper_after_hit : @ModelBumper plain_base :=
  mkBumper plain_base bumper_model tt BUMPER_WATTS 1 (Some [strip])
    (Some (mkBuffer 0 [mkSample (Some wall) (Some (mkPoint 0 (-0.05)))])) 1.

Definition bumper_after_miss : @ModelBumper plain_base :=
  mkBumper plain_base bumper_model tt BUMPER_WATTS 1 (Some [strip])
    (Some (mkBuffer 0 [mkSample None (Some (mkPoint 0 (-0.05)))])) 1.

(** Three transducers, a common length of 0.1, and lengths declared for
    the indices 2 and 0, in that order, between the other properties. *)
Definition jumbled_properties : Worldfile :=
  [(length_key 2, WfFloat 0.3);
   ("blength", WfFloat 0.1);
   (pose_key 1, WfTuple [1; 0; 0; 0]%R);
   (length_key 0, WfFloat 0.2);
   ("bcount", WfInt 3)].

(** The bumper as its constructor leaves it. *)
Definition new_bumper : @ModelBumper plain_base :=
  @ModelBumper_new plain_base bumper_model tt 0 0.

(** The reading of a cell under which its point is present exactly when
    its hit flag is set. *)
Definition point_present_iff_hit (s : bumper_sample_t) : Prop :=
  is_Some (hit_point s) ↔ is_Some (hit s).

(** One transducer, then three. *)
Definition one_bumper : Worldfile :=
  [("bcount", WfInt 1); ("blength", WfFloat 0.2)].

Definition three_bumpers : Worldfile :=
  [("bcount", WfInt 3); ("blength", WfFloat 0.2)].

(** The same model updated once per tick, the world of each tick behind
    its own engine. *)
Fixpoint run_updates `{MB : ModelBase} (ticks : list Engine) (m : ModelBumper)
    : result ModelBumper :=
  match ticks with
  | [] => Ok m
  | EN :: later => r ← @Update MB EN m; run_updates later r.1
  end.

(** Two transducers, no common length, a length for index 1 only. *)
Definition no_common_length : Worldfile :=
  [("bcount", WfInt 2); (length_key 1, WfFloat 0.3)].

(** ** The lifecycle as a sequence of calls *)

(** A call of one of the four entry points; an [Update] comes with the
    world of its tick. *)
Inductive op : Type :=
| OpLoad (wf : Worldfile)
| OpStartup
| OpShutdown
| OpUpdate (EN : Engine).

Definition step `{MB : ModelBase} (o : op) (m : ModelBumper)
    : result ModelBumper :=
  match o with
  | OpLoad wf => Load wf m
  | OpStartup => Ok (Startup m)
  | OpShutdown => Ok (Shutdown m)
  | OpUpdate EN => r ← @Update MB EN m; Ok r.1
  end.

Fixpoint run `{MB : ModelBase} (ops : list op) (m : ModelBumper)
    : result ModelBumper :=
  match ops with
  | [] => Ok m
  | o :: later => m' ← step o m; run later m'
  end.

(** The calls in which every [Load] that carries a count key comes while
    the model cannot hold a sample buffer: no [Update] since the last
    [Shutdown] ([buffered] tells whether there was one before [ops]). *)
Fixpoint loads_while_stopped (buffered : bool) (ops : list op) : bool :=
  match ops with
  | [] => true
  | OpLoad wf :: later =>
      (negb buffered || negb (PropertyExists wf "bcount"))
      && loads_while_stopped buffered later
  | OpStartup :: later => loads_while_stopped buffered later
  | OpShutdown :: later => loads_while_stopped false later
  | OpUpdate _ :: later => loads_while_stopped true later
  end.

(** The array has as many transducers as the count says, and the sample
    buffer, if there is one, as many cells. *)
Definition sized `{MB : ModelBase} (m : ModelBumper) : Prop :=
  match bumpers m with
  | None => samples m = None
  | Some bs =>
      1 ≤ bumper_count m ∧ length bs = Z.to_nat (bumper_count m) ∧
      ∀ buf, samples m = Some buf →
             length (buf_cells buf) = Z.to_nat (bumper_count m)
  end.

(** ** The heap

    The [new[]] and [delete[]] of the two arrays, as the constructor,
    [Load], [Update], [Shutdown] and the destructor issue them. *)
Inductive heap_event : Type :=
| NewBumpers
| DeleteBumpers
| NewSamples (id : nat)
| DeleteSamples (id : nat).

(** [Load]: [if( bumpers ) delete [] bumpers; bumpers = new ...], past the
    assertion. *)
Definition Load_heap `{MB : ModelBase} (wf : Worldfile) (m : ModelBumper)
    : list heap_event :=
  if PropertyExists wf "bcount" then
    if decide (to_uint32 (ReadInt wf "bcount" 0) > 0) then
      match bumpers m with Some _ => [DeleteBumpers] | None => [] end
      ++ [NewBumpers]
    else []
  else [].

(** [Update]: [if( samples == NULL ) samples = new ...], past the early
    return. *)
Definition Update_heap `{MB : ModelBase} (m : ModelBumper) : list heap_event :=
  match bumpers m with
  | None => []
  | Some _ =>
      if decide (bumper_count m < 1) then []
      else match samples m with
           | Some _ => []
           | None => [NewSamples (heap_next m)]
           end
  end.

(** [Shutdown]: [if( this->samples ) { delete[] samples; samples = NULL; }]. *)
Definition Shutdown_heap `{MB : ModelBase} (m : ModelBumper)
    : list heap_event :=
  match samples m with
  | Some buf => [DeleteSamples (buf_id buf)]
  | None => []
  end.

(** The destructor: [if( bumpers ) delete[] bumpers; if( samples )
    delete[] samples;]. *)
Definition ModelBumper_delete `{MB : ModelBase} (m : ModelBumper)
    : list heap_event :=
  match bumpers m with Some _ => [DeleteBumpers] | None => [] end
  ++ match samples m with
     | Some buf => [DeleteSamples (buf_id buf)]
     | None => []
     end.

Definition step_heap `{MB : ModelBase} (o : op) (m : ModelBumper)
    : list heap_event :=
  match o with
  | OpLoad wf => Load_heap wf m
  | OpStartup => []
  | OpShutdown => Shutdown_heap m
  | OpUpdate _ => Update_heap m
  end.

(** [run], together with the heap events of the calls. *)
Fixpoint run_heap `{MB : ModelBase} (ops : list op) (m : ModelBumper)
    : result (ModelBumper * list heap_event) :=
  match ops with
  | [] => Ok (m, [])
  | o :: later =>
      m' ← step o m;
      r ← run_heap later m';
      Ok (r.1, step_heap o m ++ r.2)
  end.

(** The blocks that are live: whether a transducer array is, and which
    sample buffer. *)
Record live : Type := mkLive { live_bumpers : bool; live_samples : option nat }.

(** One event on the live blocks.  [None]: the event frees a block that
    is not live, or replaces the only pointer to a live block by a new
    one. *)
Definition heap_step (h : live) (e : heap_event) : option live :=
  match e with
  | NewBumpers =>
      if live_bumpers h then None else Some (mkLive true (live_samples h))
  | DeleteBumpers =>
      if live_bumpers h then Some (mkLive false (live_samples h)) else None
  | NewSamples id =>
      match live_samples h with
      | Some _ => None
      | None => Some (mkLive (live_bumpers h) (Some id))
      end
  | DeleteSamples id =>
      match live_samples h with
      | Some id' => if decide (id' = id) then Some (mkLive (live_bumpers h) None)
                    else None
      | None => None
      end
  end.

Fixpoint replay (h : live) (es : list heap_event) : option live :=
  match es with
  | [] => Some h
  | e :: later => h' ← heap_step h e; replay h' later
  end.

(** ** Print and DataVisualize *)

(** A read through a null pointer, or past the end of an array. *)
Inductive crash : Type :=
| NullDereference
| PastTheEnd.

(** [samples[i]], read. *)
Definition read_sample (sm : option sample_buffer) (i : nat)
    : crash + bumper_sample_t :=
  match sm with
  | None => inl NullDereference
  | Some buf =>
      match buf_cells buf !! i with
      | Some s => inr s
      | None => inl PastTheEnd
      end
  end.

(** [bumpers[t]], read. *)
Definition read_config (bs : option (list bumper_config_t)) (t : nat)
    : crash + bumper_config_t :=
  match bs with
  | None => inl NullDereference
  | Some l =>
      match l !! t with
      | Some b => inr b
      | None => inl PastTheEnd
      end
  end.

(** [printf( "%d ", samples[i].hit?1:0 )]. *)
Definition hit_digit (s : bumper_sample_t) : string :=
  match hit s with Some _ => "1 " | None => "0 " end.

(** The loop of [Print]: [n] iterations are left, the next one at index
    [i]; [out] is what was written so far, one string per call. *)
Fixpoint Print_loop (n i : nat) (sm : option sample_buffer)
    (out : list string) : crash + list string :=
  match n with
  | O => inr out
  | S n' =>
      match read_sample sm i with
      | inl c => inl c
      | inr s => Print_loop n' (S i) sm (out ++ [hit_digit s])
      end
  end.

(** [Print], after [Model::Print( prefix )]: what the [printf] and [puts]
    calls of the bumper write to the standard output, one string per
    call. *)
Definition Print `{MB : ModelBase} (m : ModelBumper) : crash + list string :=
  match Print_loop (Z.to_nat (bumper_count m)) 0 (samples m)
          [String (Ascii.ascii_of_nat 9) "Bumpers[ "] with
  | inl c => inl c
  | inr out => inr (out ++ [" ]" +:+ String (Ascii.ascii_of_nat 10) ""])
  end.

(** The OpenGL calls of [DataVisualize]. *)
Inductive gl_call : Type :=
| glPushMatrix
| glColor3f (r g b : R)
| glRotatef (angle x y z : R)
| glTranslatef (x y z : R)
| glRectf (x1 y1 x2 y2 : R)
| glPopMatrix.

(** The body of the loop of [DataVisualize] for transducer [t]. *)
Definition draw_transducer (b : bumper_config_t) (s : bumper_sample_t)
    : list gl_call :=
  let thickness := match hit s with Some _ => 0.02%R | None => 0.01%R end in
  [glPushMatrix;
   match hit s with
   | Some _ => glColor3f 1 0 0
   | None => glColor3f 0 1 0
   end;
   glRotatef (pose_a (cfg_pose b)) 0 0 1;
   glTranslatef (pose_x (cfg_pose b)) (pose_y (cfg_pose b)) 0;
   glRectf (- cfg_length b / 2) (- thickness / 2)
           (cfg_length b / 2) (thickness / 2);
   glPopMatrix]%R.

Fixpoint DataVisualize_loop (n t : nat) (sm : option sample_buffer)
    (bs : option (list bumper_config_t)) (out : list gl_call)
    : crash + list gl_call :=
  match n with
  | O => inr out
  | S n' =>
      match read_sample sm t with
      | inl c => inl c
      | inr s =>
          match read_config bs t with
          | inl c => inl c
          | inr b =>
              DataVisualize_loop n' (S t) sm bs (out ++ draw_transducer b s)
          end
      end
  end.

(** [DataVisualize]; [showBumperData] is the value of the option of that
    name.  The camera is not used. *)
Definition DataVisualize `{MB : ModelBase} (showBumperData : bool)
    (m : ModelBumper) : crash + list gl_call :=
  match samples m, bumpers m with
  | Some _, Some _ =>
      if decide (bumper_count m = 0) then inr []
      else if negb showBumperData then inr []
      else DataVisualize_loop (Z.to_nat (bumper_count m)) 0
             (samples m) (bumpers m) []
  | _, _ => inr []
  end.

(** The depth of the matrix stack after the calls, from depth [d];
    [None] when a pop finds the stack at the depth it started from. *)
Fixpoint matrix_depth (d : nat) (calls : list gl_call) : option nat :=
  match calls with
  | [] => Some d
  | glPushMatrix :: later => matrix_depth (S d) later
  | glPopMatrix :: later =>
      match d with
      | O => None
      | S d' => matrix_depth d' later
      end
  | _ :: later => matrix_depth d later
  end.

(** ** More settings *)

(** The live blocks are the ones the two pointers of the model hold. *)
Definition held `{MB : ModelBase} (m : ModelBumper) : live :=
  mkLive (bool_decide (is_Some (bumpers m))) (buf_id <$> samples m).

(** Every [Load] of the calls finds no count key or a positive count. *)
Definition loads_pass (ops : list op) : bool :=
  forallb (λ o, match o with
                | OpLoad wf =>
                    negb (PropertyExists wf "bcount")
                    || bool_decide (to_uint32 (ReadInt wf "bcount" 0) > 0)
                | _ => true
                end) ops.

(** A day of the bumper: loaded, run for two ticks, stopped, loaded with
    more transducers, run again. *)
Definition busy_day : list op :=
  [OpLoad one_bumper; OpStartup; OpUpdate (world_engine wall_world);
   OpUpdate (world_engine empty_world); OpShutdown;
   OpLoad three_bumpers; OpStartup; OpUpdate (world_engine family_world)].

(** A quiet day: loaded, updated twice in an empty world, shut down,
    loaded with more transducers and updated again. *)
Definition quiet_day : list op :=
  [OpLoad one_bumper; OpStartup; OpUpdate (world_engine empty_world);
   OpUpdate (world_engine empty_world); OpShutdown;
   OpLoad three_bumpers; OpStartup; OpUpdate (world_engine empty_world)].

(** Three cells of earlier ticks. *)
Definition three_cells : sample_buffer :=
  mkBuffer 4 [mkSample (Some wall) (Some (mkPoint 0 (-0.05)));
              mkSample None None;
              mkSample (Some wall) (Some (mkPoint 1 1))].

(** Three transducers: a length for the first, a pose for the second,
    nothing for the third. *)
Definition sparse_properties : Worldfile :=
  bumper_properties 3 0.1 [(0, 0.2%R)] [(1, mkPose 1 0 0 0)].

(** ** The flag source (examples/ctrl/source.cc)

    [stg_color_pack], [Flag], [Model::PushFlag], [Model::AddUpdateCallback]
    and [World::GetUpdateCount] are declared in stage.hh, which is not
    part of the sources: the colour type and [stg_color_pack] are
    parameters, and the controller is embedded by the calls it makes on
    its model. *)
Module Source.

Definition INTERVAL : Z := 200.

Definition flagsz : R := 0.4%R.

Record Flag (color : Type) : Type := mkFlag { flag_color : color; flag_size : R }.
Arguments mkFlag {color} _ _.

Inductive call (color : Type) : Type :=
| PushFlag (f : Flag color)
| AddUpdateCallback.
Arguments PushFlag {color} f.
Arguments AddUpdateCallback {color}.

Section Controller.
Variable stg_color_t : Type.
Variable stg_color_pack : R → R → R → R → stg_color_t.

(** [new Flag( stg_color_pack( 1,1,0,0 ), flagsz )]. *)
Definition new_flag : Flag stg_color_t := mkFlag (stg_color_pack 1 1 0 0) flagsz.

(** [for( int i=0; i<5; i++ ) mod->PushFlag( ... )], [n] iterations left. *)
Fixpoint Init_loop (n : nat) : list (call stg_color_t) :=
  match n with
  | O => []
  | S n' => PushFlag new_flag :: Init_loop n'
  end.

(** [Init]: the calls on the model, and the value returned. *)
Definition Init : list (call stg_color_t) * Z :=
  (Init_loop 5 ++ [AddUpdateCallback], 0).

(** [Update], at the value [update_count] of the world's update counter:
    the calls on the model, and the value returned (0: run again). *)
Definition Update (update_count : Z) : list (call stg_color_t) * Z :=
  (if decide (update_count mod INTERVAL = 0) then [PushFlag new_flag] else [],
   0).

(** The callback called at each of the counts in turn, for as long as it
    returns 0. *)
Fixpoint callbacks (counts : list Z) : list (call stg_color_t) :=
  match counts with
  | [] => []
  | c :: later =>
      (Update c).1 ++ (if decide ((Update c).2 = 0) then callbacks later else [])
  end.

(** The flags among the calls. *)
Definition flags (calls : list (call stg_color_t)) : list (Flag stg_color_t) :=
  omap (λ c, match c with PushFlag f => Some f | AddUpdateCallback => None end)
       calls.

End Controller.

End Source.

(** * Properties *)

(** ** Unsigned 32-bit counters *)

Lemma to_uint32_range z : 0 ≤ to_uint32 z < UINT32_MOD.
Proof. unfold to_uint32, UINT32_MOD. apply Z.mod_pos_bound. lia. Qed.

Lemma to_uint32_small z : 0 ≤ z < UINT32_MOD → to_uint32 z = z.
Proof. intros. unfold to_uint32. apply Z.mod_small. lia. Qed.

Lemma as_int32_inj u v :
  0 ≤ u < UINT32_MOD → 0 ≤ v < UINT32_MOD → as_int32 u = as_int32 v → u = v.
Proof.
  unfold as_int32, UINT32_MOD. intros Hu Hv.
  repeat case_decide; lia.
Qed.

(** ** Arrays and counting loops *)

Lemma index_Ok {A} (a : list A) i x : a !! i = Some x → index a i = Ok x.
Proof. unfold index. now intros ->. Qed.

Lemma index_Fault {A} (a : list A) i :
  (length a ≤ i)%nat → index a i = Fault OutOfBounds.
Proof. intros Hi. unfold index. now rewrite lookup_ge_None_2. Qed.

Lemma store_Ok {A} (a : list A) i x :
  (i < length a)%nat → store a i x = Ok (<[i := x]> a).
Proof. intros Hi. unfold store. now rewrite decide_True. Qed.

Lemma store_Fault {A} (a : list A) i x :
  (length a ≤ i)%nat → store a i x = Fault OutOfBounds.
Proof. intros Hi. unfold store. rewrite decide_False; [done | lia]. Qed.

(** The invariant rule: a loop whose body keeps the invariant and does
    not fault returns, and the invariant holds at the end. *)
Lemma loop_from_invariant {S} (P : nat → S → Prop) body n i s :
  P i s →
  (∀ j s, (i ≤ j < i + n)%nat → P j s →
          ∃ s', body j s = Ok s' ∧ P (Datatypes.S j) s') →
  ∃ s', loop_from n i body s = Ok s' ∧ P (i + n)%nat s'.
Proof.
  revert i s. induction n as [|n IH]; intros i s HP Hbody; simpl.
  - exists s. rewrite Nat.add_0_r. done.
  - destruct (Hbody i s) as (s1 & -> & HP1); [lia | done |]. simpl.
    destruct (IH (Datatypes.S i) s1) as (s2 & Hs2 & HP2); [done | |].
    + intros j s' Hj. apply Hbody. lia.
    + exists s2. split; [done|]. now replace (i + Datatypes.S n)%nat
        with (Datatypes.S i + n)%nat by lia.
Qed.

Lemma rewrite_cells {A} (g : nat → A → A) (n : nat) (a : list A) :
  (n ≤ length a)%nat →
  ∃ a', loop_from n 0 (rewrite_cell g) a = Ok a' ∧
        length a' = length a ∧
        ∀ k, a' !! k = if decide (k < n)%nat then g k <$> a !! k else a !! k.
Proof.
  intros Hn.
  destruct (loop_from_invariant
    (λ j a', length a' = length a ∧
             ∀ k, a' !! k = if decide (k < j)%nat then g k <$> a !! k
                            else a !! k)
    (rewrite_cell g) n 0 a) as (a' & Hrun & Hlen & Hcells).
  - split; [done|]. intros k. rewrite decide_False; [done | lia].
  - intros j a1 Hj [Hlen Hcells].
    destruct (lookup_lt_is_Some_2 a j) as [b Hb]; [lia|].
    assert (a1 !! j = Some b) as Hb1.
    { rewrite Hcells, decide_False by lia. done. }
    exists (<[j := g j b]> a1). unfold rewrite_cell.
    rewrite (index_Ok _ _ _ Hb1). simpl.
    rewrite store_Ok by lia. split; [done|].
    split; [now rewrite length_insert|].
    intros k. destruct (decide (k = j)) as [->|Hne].
    + rewrite list_lookup_insert_eq by lia.
      rewrite decide_True by lia. now rewrite Hb.
    + rewrite list_lookup_insert_ne by done. rewrite Hcells.
      repeat case_decide; try lia; done.
  - exists a'. done.
Qed.

(** ** The worldfile readers *)

Lemma GetProperty_Some (wf : Worldfile) name v :
  NoDup wf.*1 → GetProperty wf name = Some v ↔ (name, v) ∈ wf.
Proof.
  induction wf as [|[k w] wf IH]; simpl; intros Hnd.
  - split; [done | intros H; inversion H].
  - apply NoDup_cons in Hnd as [Hk Hnd]. case_decide as Hkn.
    + subst k. split.
      * intros [= ->]. left.
      * intros [[= ->]|Hin]%elem_of_cons; [done|].
        exfalso. apply Hk. apply list_elem_of_fmap. now exists (name, v).
    + rewrite IH by done. split.
      * intros Hin. now right.
      * intros [[= -> ->]|Hin]%elem_of_cons; [done | done].
Qed.

Lemma GetProperty_None (wf : Worldfile) name :
  GetProperty wf name = None ↔ name ∉ wf.*1.
Proof.
  induction wf as [|[k w] wf IH]; simpl.
  - split; [intros _ H; inversion H | done].
  - case_decide as Hkn.
    + subst. split; [done | intros H; exfalso; apply H; left].
    + rewrite IH, not_elem_of_cons. split; [intros Hn; split; [intros ->; now apply Hkn | done] |].
      now intros [_ Hn].
Qed.

(** The readers see the declarations, not their order. *)
Lemma GetProperty_Permutation (wf wf' : Worldfile) name :
  NoDup wf.*1 → wf ≡ₚ wf' → GetProperty wf' name = GetProperty wf name.
Proof.
  intros Hnd Hperm.
  assert (NoDup wf'.*1) as Hnd' by now rewrite <- Hperm.
  destruct (GetProperty wf name) as [v|] eqn:Hv.
  - apply GetProperty_Some; [done|]. rewrite <- Hperm.
    now apply GetProperty_Some.
  - apply GetProperty_None. rewrite <- Hperm. now apply GetProperty_None.
Qed.

Lemma append_bracket_inj (p q : string) : p +:+ "]" = q +:+ "]" → p = q.
Proof.
  revert q. induction p as [|a p IH]; intros [|b q]; simpl; intros Heq.
  - done.
  - inversion Heq as [[Ha Hq]]. destruct q; discriminate.
  - inversion Heq as [[Ha Hp]]. destruct p; discriminate.
  - inversion Heq as [[Ha Hp]]. f_equal. now apply IH.
Qed.

(** ** Load *)

Section LoadFacts.
Context `{MB : ModelBase}.

Lemma Load_loops (wf : Worldfile) (count : Z) :
  ∃ bs,
    (bs1 ← for_upto count (Load_common (ReadLength wf "blength" 0%R))
              (new_bumpers count);
     for_upto count (Load_individual wf) bs1) = Ok bs ∧
    length bs = Z.to_nat count ∧
    ∀ i, (i < Z.to_nat count)%nat →
         bs !! i = Some (loaded_transducer wf (ReadLength wf "blength" 0%R) i).
Proof.
  unfold for_upto. set (n := Z.to_nat count).
  set (L := ReadLength wf "blength" 0%R).
  assert (length (new_bumpers count) = n) as Hlen0.
  { unfold new_bumpers. now rewrite length_replicate. }
  destruct (rewrite_cells (λ _ b, mkConfig (cfg_pose b) L) n
              (new_bumpers count)) as (a1 & Hrun1 & Hlen1 & Hc1); [lia|].
  destruct (rewrite_cells
              (λ i b, mkConfig (cfg_pose (loaded_transducer wf L i))
                               (ReadLength wf (blength_key i) (cfg_length b)))
              n a1) as (a2 & Hrun2 & Hlen2 & Hc2); [lia|].
  exists a2. split; [|split].
  - change (Load_common L) with
      (rewrite_cell (λ (_ : nat) b, mkConfig (cfg_pose b) L)).
    rewrite Hrun1. simpl. exact Hrun2.
  - lia.
  - intros i Hi. rewrite Hc2, decide_True by done.
    rewrite Hc1, decide_True by done.
    destruct (lookup_lt_is_Some_2 (new_bumpers count) i) as [b0 ->]; [lia|].
    done.
Qed.

(** With a count key whose value, as an unsigned number, is positive,
    [Load] returns and configures that many transducers. *)
Lemma Load_configures (wf : Worldfile) (m : ModelBumper) :
  PropertyExists wf "bcount" = true →
  to_uint32 (ReadInt wf "bcount" 0) > 0 →
  ∃ bs,
    Load wf m = Ok (set_base (Model_Load wf (base m))
                      (set_array (to_uint32 (ReadInt wf "bcount" 0))
                                 (Some bs) m)) ∧
    length bs = Z.to_nat (to_uint32 (ReadInt wf "bcount" 0)) ∧
    ∀ i, (i < Z.to_nat (to_uint32 (ReadInt wf "bcount" 0)))%nat →
         bs !! i = Some (loaded_transducer wf (ReadLength wf "blength" 0%R) i).
Proof.
  intros Hex Hpos.
  destruct (Load_loops wf (to_uint32 (ReadInt wf "bcount" 0)))
    as (bs & Hrun & Hlen & Hcells).
  exists bs. split; [|done].
  unfold Load. rewrite Hex, decide_True by done.
  destruct (for_upto _ (Load_common _) _) as [bs1|] eqn:H1; simpl in *;
    [|discriminate].
  rewrite Hrun. done.
Qed.

(** Without a count key [Load] leaves the bumper fields alone. *)
Lemma Load_no_count (wf : Worldfile) (m : ModelBumper) :
  PropertyExists wf "bcount" = false →
  Load wf m = Ok (set_base (Model_Load wf (base m)) m).
Proof. intros Hex. unfold Load. now rewrite Hex. Qed.

(** The assertion of [Load]. *)
Lemma Load_asserts (wf : Worldfile) (m : ModelBumper) :
  PropertyExists wf "bcount" = true →
  to_uint32 (ReadInt wf "bcount" 0) = 0 →
  Load wf m = Fault AssertionFailed.
Proof.
  intros Hex Hz. unfold Load. rewrite Hex, Hz. done.
Qed.

End LoadFacts.

(** ** Update *)

Lemma loop_from_app {S} (body : nat → S → result S) n1 n2 i s :
  loop_from (n1 + n2) i body s =
  (s' ← loop_from n1 i body s; loop_from n2 (i + n1) body s').
Proof.
  revert i s. induction n1 as [|n1 IH]; intros i s; simpl.
  - now rewrite Nat.add_0_r.
  - destruct (body i s) as [s1|f]; simpl; [|done].
    rewrite IH. now replace (Datatypes.S i + n1)%nat
      with (i + Datatypes.S n1)%nat by lia.
Qed.

Section UpdateFacts.
Context `{MB : ModelBase} `{EN : Engine}.

Lemma Update_transducer_Ok me bs cells casts t b s :
  bs !! t = Some b → cells !! t = Some s →
  Update_transducer me bs t (cells, casts) =
    Ok (<[t := sensed me b s]> cells, casts ++ [probe_cast b]).
Proof.
  intros Hb Hs. unfold Update_transducer.
  rewrite (index_Ok _ _ _ Hb). simpl.
  rewrite (index_Ok _ _ _ Hs). simpl.
  rewrite store_Ok by (now apply lookup_lt_Some in Hs). done.
Qed.

Lemma Update_transducer_overrun me bs cells casts t b :
  bs !! t = Some b → (length cells ≤ t)%nat →
  Update_transducer me bs t (cells, casts) = Fault OutOfBounds.
Proof.
  intros Hb Ht. unfold Update_transducer.
  rewrite (index_Ok _ _ _ Hb). simpl.
  now rewrite index_Fault.
Qed.

(** The loop of [Update] over a buffer that has a cell for every
    transducer. *)
Lemma Update_loop me bs cells n :
  (n ≤ length bs)%nat → (n ≤ length cells)%nat →
  ∃ cells',
    loop_from n 0 (Update_transducer me bs) (cells, []) =
      Ok (cells', probe_cast <$> take n bs) ∧
    length cells' = length cells ∧
    ∀ k, cells' !! k = if decide (k < n)%nat then sensed_cell me bs cells k
                       else cells !! k.
Proof.
  intros Hbs Hcells.
  destruct (loop_from_invariant
    (λ j (st : list bumper_sample_t * list cast),
       st.2 = probe_cast <$> take j bs ∧ length st.1 = length cells ∧
       ∀ k, st.1 !! k = if decide (k < j)%nat then sensed_cell me bs cells k
                        else cells !! k)
    (Update_transducer me bs) n 0 (cells, []))
    as ([cells' casts'] & Hrun & Hcasts & Hlen & Hk).
  - simpl. split; [done|]. split; [done|]. intros k.
    done.
  - intros j [c1 k1] Hj (Hcasts & Hlen & Hk). simpl in *.
    destruct (lookup_lt_is_Some_2 bs j) as [b Hb]; [lia|].
    destruct (lookup_lt_is_Some_2 cells j) as [s Hs]; [lia|].
    assert (c1 !! j = Some s) as Hs1.
    { rewrite Hk, decide_False by lia. done. }
    eexists. split; [apply (Update_transducer_Ok _ _ _ _ _ _ _ Hb Hs1)|].
    simpl. split; [|split].
    + rewrite Hcasts. rewrite (take_S_r _ _ _ Hb), fmap_app. done.
    + now rewrite length_insert.
    + intros k. destruct (decide (k = j)) as [->|Hne].
      * rewrite list_lookup_insert_eq by lia.
        rewrite decide_True by lia. unfold sensed_cell. now rewrite Hb, Hs.
      * rewrite list_lookup_insert_ne by done. rewrite Hk.
        repeat case_decide; try lia; done.
  - simpl in *. subst casts'. exists cells'. done.
Qed.

(** The loop of [Update] over a buffer that is shorter than the array:
    the store into [samples[length cells]] is past the end. *)
Lemma Update_loop_overrun me bs cells n :
  (length cells < length bs)%nat → (length cells < n)%nat →
  loop_from n 0 (Update_transducer me bs) (cells, []) = Fault OutOfBounds.
Proof.
  intros Hbs Hcells.
  replace n with (length cells + (1 + (n - length cells - 1)))%nat by lia.
  rewrite loop_from_app.
  destruct (Update_loop me bs cells (length cells)) as (c1 & -> & Hlen & _);
    [lia | lia |].
  destruct (lookup_lt_is_Some_2 bs (length cells)) as [b Hb]; [lia|].
  cbn [mbind result_bind loop_from Nat.add].
  rewrite (Update_transducer_overrun _ _ _ _ _ _ Hb) by lia. done.
Qed.

End UpdateFacts.

Section UpdateSteps.
Context `{MB : ModelBase} `{EN : Engine}.

Lemma Update_unconfigured (m : ModelBumper) :
  bumpers m = None ∨ bumper_count m < 1 →
  Update m = Ok (set_base (Model_Update (base m)) m, []).
Proof.
  intros Hun. unfold Update. simpl.
  destruct (bumpers m) as [bs|]; [|done].
  destruct Hun as [|Hc]; [done|]. now rewrite decide_True.
Qed.

(** The first [Update] of a configured model without a buffer. *)
Lemma Update_allocates (m : ModelBumper) (bs : list bumper_config_t) :
  bumpers m = Some bs → 1 ≤ bumper_count m →
  (Z.to_nat (bumper_count m) ≤ length bs)%nat →
  samples m = None →
  ∃ cells,
    Update m =
      Ok (mkBumper _ (self m) (Model_Update (base m)) (watts m)
            (bumper_count m) (Some bs)
            (Some (mkBuffer (heap_next m) cells)) (S (heap_next m)),
          probe_cast <$> take (Z.to_nat (bumper_count m)) bs) ∧
    length cells = Z.to_nat (bumper_count m) ∧
    ∀ k, (k < Z.to_nat (bumper_count m))%nat →
         cells !! k = (λ b, sensed (self m) b fresh_sample) <$> bs !! k.
Proof.
  intros Hbs Hc Hlen Hs.
  destruct (Update_loop (self m) bs
              (replicate (Z.to_nat (bumper_count m)) fresh_sample)
              (Z.to_nat (bumper_count m)))
    as (cells & Hrun & Hl & Hk); [done | now rewrite length_replicate |].
  exists cells. split; [|split].
  - unfold Update. simpl. rewrite Hbs, decide_False by lia.
    rewrite Hs. simpl. unfold for_upto. simpl. rewrite Hrun. simpl.
    unfold set_samples. simpl. now rewrite Hbs.
  - now rewrite Hl, length_replicate.
  - intros k Hlt. rewrite Hk, decide_True by done. unfold sensed_cell.
    rewrite lookup_replicate_2 by done. now destruct (bs !! k).
Qed.

(** An [Update] of a configured model that has a buffer with a cell for
    every transducer. *)
Lemma Update_reuses (m : ModelBumper) (bs : list bumper_config_t)
    (buf : sample_buffer) :
  bumpers m = Some bs → 1 ≤ bumper_count m →
  (Z.to_nat (bumper_count m) ≤ length bs)%nat →
  samples m = Some buf →
  (Z.to_nat (bumper_count m) ≤ length (buf_cells buf))%nat →
  ∃ cells,
    Update m =
      Ok (mkBumper _ (self m) (Model_Update (base m)) (watts m)
            (bumper_count m) (Some bs)
            (Some (mkBuffer (buf_id buf) cells)) (heap_next m),
          probe_cast <$> take (Z.to_nat (bumper_count m)) bs) ∧
    length cells = length (buf_cells buf) ∧
    ∀ k, cells !! k =
         if decide (k < Z.to_nat (bumper_count m))%nat
         then sensed_cell (self m) bs (buf_cells buf) k
         else buf_cells buf !! k.
Proof.
  intros Hbs Hc Hlen Hs Hbuf.
  destruct (Update_loop (self m) bs (buf_cells buf)
              (Z.to_nat (bumper_count m)))
    as (cells & Hrun & Hl & Hk); [done | done |].
  exists cells. split; [|done].
  unfold Update. simpl. rewrite Hbs, decide_False by lia.
  rewrite Hs. simpl. unfold for_upto. rewrite Hrun. simpl.
  unfold set_samples. simpl. now rewrite Hbs.
Qed.

(** An [Update] of a configured model whose buffer is shorter than the
    array writes past the end of the buffer. *)
Lemma Update_overruns (m : ModelBumper) (bs : list bumper_config_t)
    (buf : sample_buffer) :
  bumpers m = Some bs → 1 ≤ bumper_count m →
  (Z.to_nat (bumper_count m) ≤ length bs)%nat →
  samples m = Some buf →
  (length (buf_cells buf) < Z.to_nat (bumper_count m))%nat →
  Update m = Fault OutOfBounds.
Proof.
  intros Hbs Hc Hlen Hs Hbuf.
  unfold Update. simpl. rewrite Hbs, decide_False by lia.
  rewrite Hs. simpl. unfold for_upto.
  rewrite Update_loop_overrun by lia. done.
Qed.

(** An [Update] of a configured model whose buffer, if it has one, has
    one cell per transducer: it returns, having cast one ray per
    transducer and rewritten every cell. *)
Lemma Update_runs (m : ModelBumper) (bs : list bumper_config_t) :
  bumpers m = Some bs → 1 ≤ bumper_count m →
  length bs = Z.to_nat (bumper_count m) →
  length (cells_before m) = Z.to_nat (bumper_count m) →
  ∃ m' cells,
    Update m = Ok (m', probe_cast <$> bs) ∧
    samples m' =
      Some (mkBuffer (match samples m with
                      | Some buf => buf_id buf
                      | None => heap_next m
                      end) cells) ∧
    heap_next m' = (match samples m with
                    | Some _ => heap_next m
                    | None => S (heap_next m)
                    end) ∧
    bumpers m' = Some bs ∧ bumper_count m' = bumper_count m ∧
    self m' = self m ∧ watts m' = watts m ∧
    base m' = Model_Update (base m) ∧
    length cells = Z.to_nat (bumper_count m) ∧
    ∀ k b s0, bs !! k = Some b → cells_before m !! k = Some s0 →
              cells !! k = Some (sensed (self m) b s0).
Proof.
  intros Hbs Hc Hlen Hcells. unfold cells_before in *.
  destruct (samples m) as [buf|] eqn:Hs.
  - destruct (Update_reuses m bs buf) as (cells & Hrun & Hl & Hk);
      [done | done | lia | done | lia |].
    eexists _, cells. rewrite Hrun, take_ge by lia.
    repeat (split; [reflexivity || lia|]).
    intros k b s0 Hb Hs0. rewrite Hk.
    rewrite decide_True by (apply lookup_lt_Some in Hb; lia).
    unfold sensed_cell. now rewrite Hb, Hs0.
  - destruct (Update_allocates m bs) as (cells & Hrun & Hl & Hk);
      [done | done | lia | done |].
    eexists _, cells. rewrite Hrun, take_ge by lia.
    repeat (split; [reflexivity || lia|]).
    intros k b s0 Hb Hs0.
    assert (k < Z.to_nat (bumper_count m))%nat as Hlt
      by (apply lookup_lt_Some in Hb; lia).
    rewrite Hk, Hb by done. simpl.
    apply lookup_replicate in Hs0 as [-> _]. done.
Qed.

(** The same, as one equation. *)
Lemma Update_explicit (m : ModelBumper) (bs : list bumper_config_t) :
  bumpers m = Some bs → 1 ≤ bumper_count m →
  length bs = Z.to_nat (bumper_count m) →
  length (cells_before m) = Z.to_nat (bumper_count m) →
  Update m =
    Ok (mkBumper _ (self m) (Model_Update (base m)) (watts m)
          (bumper_count m) (Some bs)
          (Some (mkBuffer (match samples m with
                           | Some buf => buf_id buf
                           | None => heap_next m
                           end)
                          (zip_with (sensed (self m)) bs (cells_before m))))
          (match samples m with
           | Some _ => heap_next m
           | None => S (heap_next m)
           end),
        probe_cast <$> bs).
Proof.
  intros Hbs Hc Hlen Hcells.
  destruct (Update_runs m bs Hbs Hc Hlen Hcells)
    as (m' & cells & -> & Hs & Hn & Hb & Hcount & Hself & Hw & Hbase & Hl & Hk).
  do 2 f_equal. destruct m' as [me' b' w' n' bs' sm' nx']. simpl in *.
  subst. do 2 f_equal. f_equal. apply list_eq. intros k.
  rewrite lookup_zip_with.
  destruct (bs !! k) as [b|] eqn:Hbk; simpl.
  - destruct (lookup_lt_is_Some_2 (cells_before m) k) as [s0 Hs0].
    { apply lookup_lt_Some in Hbk. lia. }
    rewrite Hs0. simpl. now apply Hk.
  - apply lookup_ge_None_2. apply lookup_ge_None_1 in Hbk. lia.
Qed.

End UpdateSteps.

(** ** Probe geometry *)

(** C1.  For every configured transducer [t], [Update] casts one ray whose
    heading is the transducer's heading plus [PI / 2], whose origin is the
    transducer's position minus half the length times the cosine (for x)
    and sine (for y) of that heading, and whose range is the transducer's
    length; the cell of [t] holds the outcome of that very cast.  For a
    single transducer at pose (0, 0, 0, 0) of length 0.2 the one cast has
    heading [PI / 2], origin (0, -0.1) and range 0.2. *)
Theorem Update_probe_geometry `{MB : ModelBase} `{EN : Engine}
    (m : ModelBumper) (bs : list bumper_config_t) :
  bumpers m = Some bs → 1 ≤ bumper_count m →
  length bs = Z.to_nat (bumper_count m) →
  length (cells_before m) = Z.to_nat (bumper_count m) →
  ∃ m' casts buf,
    Update m = Ok (m', casts) ∧ samples m' = Some buf ∧
    length casts = length bs ∧
    (∀ t b, bs !! t = Some b →
       ∃ c s, casts !! t = Some c ∧
         pose_a (cast_pose c) = (pose_a (cfg_pose b) + PI / 2)%R ∧
         pose_x (cast_pose c) =
           (pose_x (cfg_pose b) - cfg_length b / 2 * cos (pose_a (cast_pose c)))%R ∧
         pose_y (cast_pose c) =
           (pose_y (cfg_pose b) - cfg_length b / 2 * sin (pose_a (cast_pose c)))%R ∧
         cast_range c = cfg_length b ∧
         buf_cells buf !! t = Some s ∧
         hit s = ray_mod (Raytrace (self m) (cast_pose c) (cast_range c)
                                   bumper_match)) ∧
    (bs = [mkConfig (mkPose 0 0 0 0) 0.2] →
     casts = [mkCast (mkPose 0 (-0.1) (pose_z Pose_default) (PI / 2)) 0.2]).
Proof.
  intros Hbs Hc Hlen Hcells.
  destruct (Update_runs m bs Hbs Hc Hlen Hcells)
    as (m' & cells & Hrun & Hs & _ & _ & _ & _ & _ & _ & Hl & Hk).
  eexists m', (probe_cast <$> bs), _.
  split; [done|]. split; [exact Hs|]. split; [now rewrite length_fmap|]. split.
  - intros t b Hb.
    destruct (lookup_lt_is_Some_2 (cells_before m) t) as [s0 Hs0].
    { apply lookup_lt_Some in Hb. lia. }
    exists (probe_cast b), (sensed (self m) b s0).
    rewrite list_lookup_fmap, Hb. simpl.
    repeat (split; [reflexivity|]). split; [|reflexivity].
    now apply Hk.
  - intros ->. simpl. unfold probe_cast, probe_pose. simpl.
    rewrite Rplus_0_l, cos_PI2, sin_PI2. do 2 f_equal. f_equal; lra.
Qed.

Lemma Update_probe_geometry_witness :
  ∃ m' buf,
    @Update plain_base (world_engine empty_world) started_bumper
    = Ok (m', [mkCast (mkPose 0 (-0.1) 0 (PI / 2)) 0.2]) ∧
    samples m' = Some buf.
Proof.
  destruct (@Update_probe_geometry plain_base (world_engine empty_world)
              started_bumper [strip])
    as (m' & casts & buf & Hrun & Hs & _ & _ & Hone);
    [reflexivity | simpl; lia | reflexivity | reflexivity |].
  exists m', buf. split; [|assumption].
  rewrite Hrun. do 2 f_equal. exact (Hone eq_refl).
Defined.

(** ** The hierarchy and the matcher *)

Lemma ancestor_of_ancestors a m : ancestor_of a m ↔ a ∈ ancestors m.
Proof.
  split.
  - induction 1 as [m p Hp | m p a Hp _ IH];
      destruct m as [id o [q|]]; simpl in *; simplify_eq.
    + left.
    + now right.
  - revert a. induction m as [id o | id o p IH] using Model_chain_ind;
      simpl; intros a Ha.
    + inversion Ha.
    + apply elem_of_cons in Ha as [->|Ha].
      * now apply ancestor_parent.
      * apply (ancestor_up _ p); [done | now apply IH].
Qed.

Lemma chain_has_spec c m :
  existsb (same_model c) (ancestors m) = true ↔ is_ancestor c m.
Proof.
  rewrite existsb_exists. unfold is_ancestor, same_model. split.
  - intros (a & Ha & Heq). apply bool_decide_eq_true in Heq.
    exists a. split; [|done]. apply ancestor_of_ancestors.
    now apply list_elem_of_In.
  - intros (a & Ha & Heq). exists a. split.
    + apply list_elem_of_In. now apply ancestor_of_ancestors.
    + now apply bool_decide_eq_true.
Qed.

Lemma IsRelated_spec c m : IsRelated c m = true ↔ related c m.
Proof.
  unfold IsRelated, related. rewrite !orb_true_iff, !chain_has_spec.
  unfold same_model, is_self. rewrite bool_decide_eq_true.
  unfold is_descendant, is_ancestor. tauto.
Qed.

Lemma bumper_match_spec c m :
  bumper_match c m = true ↔ vis_obstacle_return c = true ∧ ¬ related c m.
Proof.
  unfold bumper_match. rewrite andb_true_iff, negb_true_iff.
  rewrite <- IsRelated_spec. now rewrite not_true_iff_false.
Qed.

(** ** The engine of a world *)

Lemma nearest_elem (cs : list crossing) c : nearest cs = Some c → c ∈ cs.
Proof.
  revert c. induction cs as [|c0 cs IH]; simpl; intros c; [done|].
  destruct (nearest cs) as [d|].
  - intros [= <-]. unfold nearer. case_decide; [left | right; now apply IH].
  - intros [= <-]. left.
Qed.

Lemma nearest_None (cs : list crossing) : nearest cs = None → cs = [].
Proof. destruct cs as [|c cs]; simpl; [done|]. now destruct (nearest cs). Qed.

(** What the engine reports was met by the ray within its sweep and
    accepted by the matcher. *)
Lemma World_Raytrace_hit idx finder pose range matcher c :
  ray_mod (World_Raytrace idx finder pose range matcher) = Some c →
  matcher c finder = true ∧
  ∃ x, x ∈ idx finder pose ∧ cr_mod x = c ∧ (0 <= cr_range x < range)%R.
Proof.
  unfold World_Raytrace.
  destruct (nearest _) as [x|] eqn:Hx; simpl; [|done].
  intros [= <-]. apply nearest_elem in Hx.
  apply list_elem_of_filter in Hx as [[Hr Hm] Hin]. eauto.
Qed.

(** A cast of range 0 sweeps nothing. *)
Lemma World_Raytrace_zero idx finder pose matcher :
  ray_mod (World_Raytrace idx finder pose 0 matcher) = None.
Proof.
  destruct (ray_mod _) as [c|] eqn:Hc; [|done].
  apply World_Raytrace_hit in Hc as (_ & x & _ & _ & Hr). lra.
Qed.

(** The nearest accepted crossing is reported: an accepted crossing within
    the sweep makes the cast a hit. *)
Lemma World_Raytrace_finds idx finder pose range matcher x :
  x ∈ idx finder pose → (0 <= cr_range x < range)%R →
  matcher (cr_mod x) finder = true →
  is_Some (ray_mod (World_Raytrace idx finder pose range matcher)).
Proof.
  intros Hin Hr Hm. unfold World_Raytrace.
  destruct (nearest _) as [c|] eqn:Hc; simpl; [done|].
  apply nearest_None in Hc.
  assert (x ∈ filter (in_reach finder range matcher) (idx finder pose)) as Hx.
  { apply list_elem_of_filter. split; [split|]; done. }
  rewrite Hc in Hx. inversion Hx.
Qed.

(** ** What a returning Update has done *)

Section UpdateReturns.
Context `{MB : ModelBase} `{EN : Engine}.

Lemma Update_transducer_short me bs cells casts t :
  (length bs ≤ t)%nat →
  Update_transducer me bs t (cells, casts) = Fault OutOfBounds.
Proof.
  intros Ht. unfold Update_transducer. now rewrite (index_Fault bs t Ht).
Qed.

(** The loop of [Update] over an array that is shorter than the count:
    the read of [bumpers[length bs]] is past the end. *)
Lemma Update_loop_short me bs cells n :
  (length bs < n)%nat → (length bs ≤ length cells)%nat →
  loop_from n 0 (Update_transducer me bs) (cells, []) = Fault OutOfBounds.
Proof.
  intros Hbs Hcells.
  replace n with (length bs + (1 + (n - length bs - 1)))%nat by lia.
  rewrite loop_from_app.
  destruct (Update_loop me bs cells (length bs)) as (c1 & -> & Hlen & _);
    [lia | lia |].
  cbn [mbind result_bind loop_from Nat.add].
  rewrite Update_transducer_short by lia. done.
Qed.

(** The loop returns only if both arrays have [n] cells. *)
Lemma Update_loop_returns me bs cells n r :
  loop_from n 0 (Update_transducer me bs) (cells, []) = Ok r →
  (n ≤ length bs)%nat ∧ (n ≤ length cells)%nat.
Proof.
  intros Hrun.
  destruct (decide (n ≤ length bs)%nat) as [Hbs|Hbs];
    destruct (decide (n ≤ length cells)%nat) as [Hc|Hc]; try done; exfalso.
  - rewrite Update_loop_overrun in Hrun by lia. discriminate.
  - rewrite Update_loop_short in Hrun by lia. discriminate.
  - destruct (decide (length bs ≤ length cells)%nat).
    + rewrite Update_loop_short in Hrun by lia. discriminate.
    + rewrite Update_loop_overrun in Hrun by lia. discriminate.
Qed.

(** A returning [Update] of a model with a positive count found an array
    and cells for every index below the count, cast the probe of each
    transducer and rewrote its cell. *)
Lemma Update_returns (m m' : ModelBumper) (casts : list cast) :
  Update m = Ok (m', casts) → 1 ≤ bumper_count m →
  bumpers m = None ∧ m' = set_base (Model_Update (base m)) m ∧ casts = [] ∨
  ∃ bs cells,
    bumpers m = Some bs ∧
    (Z.to_nat (bumper_count m) ≤ length bs)%nat ∧
    (Z.to_nat (bumper_count m) ≤ length (cells_before m))%nat ∧
    casts = probe_cast <$> take (Z.to_nat (bumper_count m)) bs ∧
    m' = mkBumper _ (self m) (Model_Update (base m)) (watts m)
           (bumper_count m) (Some bs)
           (Some (mkBuffer (match samples m with
                            | Some buf => buf_id buf
                            | None => heap_next m
                            end) cells))
           (match samples m with
            | Some _ => heap_next m
            | None => S (heap_next m)
            end) ∧
    length cells = length (cells_before m) ∧
    ∀ k, cells !! k =
         if decide (k < Z.to_nat (bumper_count m))%nat
         then sensed_cell (self m) bs (cells_before m) k
         else cells_before m !! k.
Proof.
  intros Hrun Hc.
  destruct (bumpers m) as [bs|] eqn:Hbs.
  2:{ left. rewrite Update_unconfigured in Hrun by now left.
      now injection Hrun as <- <-. }
  right. exists bs.
  assert ((Z.to_nat (bumper_count m) ≤ length bs)%nat ∧
          (Z.to_nat (bumper_count m) ≤ length (cells_before m))%nat)
    as [Hlb Hlc].
  { revert Hrun. unfold Update, cells_before. simpl.
    rewrite Hbs, decide_False by lia.
    destruct (samples m) as [buf|]; simpl; unfold for_upto;
      destruct (loop_from _ _ _ _) as [r|] eqn:Hloop; try discriminate;
      intros _; now apply Update_loop_returns in Hloop. }
  unfold cells_before in *. destruct (samples m) as [buf|] eqn:Hs.
  - destruct (Update_reuses m bs buf) as (cells & Hrun' & Hl & Hk);
      [done | done | lia | done | lia |].
    rewrite Hrun' in Hrun. injection Hrun as <- <-.
    exists cells. done.
  - destruct (Update_allocates m bs) as (cells & Hrun' & Hl & Hk);
      [done | done | lia | done |].
    rewrite Hrun' in Hrun. injection Hrun as <- <-.
    exists cells. rewrite length_replicate. split_and!; try done.
    intros k. case_decide as Hlt.
    + rewrite Hk by done. unfold sensed_cell.
      rewrite lookup_replicate_2 by done. now destruct (bs !! k).
    + rewrite (lookup_ge_None_2 cells) by lia.
      rewrite lookup_ge_None_2; [done | rewrite length_replicate; lia].
Qed.

End UpdateReturns.

(** ** Scenarios *)

Lemma wall_world_ray pose :
  World_Raytrace wall_world bumper_model pose 0.2 bumper_match =
  mkRay (mkPose 0 (-0.05) 0 0) (Some wall) 0.05.
Proof.
  unfold World_Raytrace, wall_world.
  rewrite filter_cons_True; [done|].
  split; [cbn [cr_range]; lra | reflexivity].
Qed.

Lemma family_world_ray pose range :
  World_Raytrace family_world bumper_model pose range bumper_match =
  mkRay pose None range.
Proof.
  unfold World_Raytrace, family_world.
  rewrite !filter_cons_False; [done | | |]; intros [_ Hm]; discriminate.
Qed.

Lemma strip_probe_cast :
  @probe_cast plain_base strip = mkCast (mkPose 0 (-0.1) 0 (PI / 2)) 0.2.
Proof.
  unfold probe_cast, probe_pose, strip. cbn [cfg_pose cfg_length pose_x pose_y pose_a].
  rewrite Rplus_0_l, cos_PI2, sin_PI2. f_equal. f_equal; lra.
Qed.

(** Scenario A: a visible, unrelated obstacle 0.05 along the probe ray is
    hit, at range 0.05 from the probe origin (0, -0.1). *)
Lemma scenario_A :
  @Update plain_base (world_engine wall_world) started_bumper =
    Ok (bumper_after_hit, [mkCast (mkPose 0 (-0.1) 0 (PI / 2)) 0.2]).
Proof.
  rewrite (@Update_explicit plain_base (world_engine wall_world)
             started_bumper [strip]);
    [| reflexivity | simpl; lia | reflexivity | reflexivity].
  cbn [fmap list_fmap]. rewrite strip_probe_cast.
  unfold bumper_after_hit. do 2 f_equal. simpl. do 3 f_equal.
  unfold sensed, probe_ray. simpl. now rewrite wall_world_ray.
Qed.

(** Scenario B: the obstacle is the bumper itself, an ancestor or a
    descendant; the cell reads no hit although the ray meets them. *)
Lemma scenario_B :
  @Update plain_base (world_engine family_world) started_bumper =
    Ok (mkBumper plain_base bumper_model tt BUMPER_WATTS 1 (Some [strip])
          (Some (mkBuffer 0 [mkSample None None])) 1,
        [mkCast (mkPose 0 (-0.1) 0 (PI / 2)) 0.2]).
Proof.
  rewrite (@Update_explicit plain_base (world_engine family_world)
             started_bumper [strip]);
    [| reflexivity | simpl; lia | reflexivity | reflexivity].
  cbn [fmap list_fmap]. rewrite strip_probe_cast.
  do 2 f_equal. simpl. do 3 f_equal.
  unfold sensed, probe_ray. simpl. now rewrite family_world_ray.
Qed.

(** C2.  The matcher of the bumper accepts a candidate if and only if the
    candidate's [obstacle_return] flag is set and the candidate is not
    the casting model, one of its ancestors or one of its descendants;
    hence no cell that an [Update] wrote names the model itself, an
    ancestor or a descendant as the hit, whatever the rays meet. *)
Theorem bumper_match_excludes_relatives `{MB : ModelBase} (idx : SpatialIndex) :
  (∀ candidate finder,
     bumper_match candidate finder = true ↔
     vis_obstacle_return candidate = true ∧
     ¬ (is_self candidate finder ∨ is_ancestor candidate finder ∨
        is_descendant candidate finder)) ∧
  (∀ finder pose range c,
     ray_mod (World_Raytrace idx finder pose range bumper_match) = Some c →
     ¬ is_self c finder ∧ ¬ is_ancestor c finder ∧ ¬ is_descendant c finder) ∧
  (∀ (m m' : ModelBumper) casts buf t s c,
     @Update MB (world_engine idx) m = Ok (m', casts) →
     samples m' = Some buf →
     (t < length casts)%nat →
     buf_cells buf !! t = Some s →
     hit s = Some c →
     vis_obstacle_return c = true ∧ ¬ is_self c (self m) ∧
     ¬ is_ancestor c (self m) ∧ ¬ is_descendant c (self m)).
Proof.
  assert (∀ finder pose range c,
     ray_mod (World_Raytrace idx finder pose range bumper_match) = Some c →
     vis_obstacle_return c = true ∧ ¬ related c finder) as Hray.
  { intros finder pose range c Hc.
    apply World_Raytrace_hit in Hc as [Hm _]. now apply bumper_match_spec. }
  split; [exact bumper_match_spec|]. split.
  - intros finder pose range c Hc. apply Hray in Hc as [_ Hn].
    unfold related in Hn. tauto.
  - intros m m' casts buf t s c Hrun Hs Ht Hcell Hhit.
    destruct (decide (bumper_count m < 1)) as [Hc|Hc].
    { rewrite Update_unconfigured in Hrun by now right.
      injection Hrun as <- <-. simpl in Ht. lia. }
    apply Update_returns in Hrun as [(_ & _ & ->) | Hsome]; [| |lia].
    { simpl in Ht. lia. }
    destruct Hsome as (bs & cells & Hbs & Hlb & Hlc & -> & -> & Hl & Hk).
    rewrite length_fmap, length_take in Ht.
    simpl in Hs. injection Hs as <-. simpl in Hcell.
    rewrite Hk, decide_True in Hcell by lia.
    unfold sensed_cell in Hcell.
    destruct (bs !! t) as [b|]; [|done].
    destruct (cells_before m !! t) as [s0|]; [|done].
    injection Hcell as <-. simpl in Hhit.
    apply Hray in Hhit as [Hv Hn]. unfold related in Hn. tauto.
Qed.

Lemma bumper_match_excludes_relatives_witness :
  vis_obstacle_return wall = true ∧ ¬ is_self wall bumper_model ∧
  ¬ is_ancestor wall bumper_model ∧ ¬ is_descendant wall bumper_model.
Proof.
  exact (proj2 (proj2 (@bumper_match_excludes_relatives plain_base wall_world))
           started_bumper bumper_after_hit _
           (mkBuffer 0 [mkSample (Some wall) (Some (mkPoint 0 (-0.05)))])
           0%nat _ wall
           scenario_A eq_refl (Nat.lt_0_succ 0) eq_refl eq_refl).
Defined.

(** ** Keys and declaration order *)

Lemma length_key_inj k k' : length_key k = length_key k' → k = k'.
Proof.
  unfold length_key. intros Heq. apply String.app_inj in Heq.
  apply append_bracket_inj in Heq. now apply pretty_Z_inj in Heq.
Qed.

Lemma pose_key_inj k k' : pose_key k = pose_key k' → k = k'.
Proof.
  unfold pose_key. intros Heq. apply String.app_inj in Heq.
  apply append_bracket_inj in Heq. now apply pretty_Z_inj in Heq.
Qed.

Lemma length_key_not_pose_key k k' : length_key k ≠ pose_key k'.
Proof. unfold length_key, pose_key. simpl. discriminate. Qed.

Lemma length_key_not_plain k :
  length_key k ≠ "bcount" ∧ length_key k ≠ "blength".
Proof.
  unfold length_key. simpl. split; discriminate.
Qed.

Lemma pose_key_not_plain k : pose_key k ≠ "bcount" ∧ pose_key k ≠ "blength".
Proof. unfold pose_key. simpl. split; discriminate. Qed.

Lemma blength_key_small (i : Z) :
  0 ≤ i < 2 ^ 31 → blength_key (Z.to_nat i) = length_key i.
Proof.
  intros Hi. unfold blength_key, as_int32.
  rewrite Z2Nat.id by lia. now rewrite decide_True by lia.
Qed.

(** The loop of [Load] reads a key of its own for every index. *)
Lemma blength_key_inj (i j : nat) :
  Z.of_nat i < UINT32_MOD → Z.of_nat j < UINT32_MOD →
  blength_key i = blength_key j → i = j.
Proof.
  intros Hi Hj Heq. apply length_key_inj, as_int32_inj in Heq; lia.
Qed.

Lemma length_override_keys (lens : list (Z * R)) :
  (length_override <$> lens).*1 = length_key <$> lens.*1.
Proof. induction lens as [|[k l] lens IH]; simpl; [done | now f_equal]. Qed.

Lemma pose_override_keys (poses : list (Z * Pose)) :
  (pose_override <$> poses).*1 = pose_key <$> poses.*1.
Proof. induction poses as [|[k l] ps IH]; simpl; [done | now f_equal]. Qed.

Lemma bumper_properties_NoDup N L lens poses :
  NoDup lens.*1 → NoDup poses.*1 →
  NoDup (bumper_properties N L lens poses).*1.
Proof.
  intros Hl Hp. unfold bumper_properties. simpl.
  rewrite fmap_app, length_override_keys, pose_override_keys.
  assert (NoDup ((length_key <$> lens.*1) ++ (pose_key <$> poses.*1))) as Hnd.
  { apply NoDup_app. split; [|split].
    - apply NoDup_fmap_2; [|done]. intros k k'. apply length_key_inj.
    - intros x (k & -> & _)%list_elem_of_fmap (k' & Heq & _)%list_elem_of_fmap.
      now apply length_key_not_pose_key in Heq.
    - apply NoDup_fmap_2; [|done]. intros k k'. apply pose_key_inj. }
  apply NoDup_cons. split.
  - rewrite not_elem_of_cons, not_elem_of_app. split; [discriminate|]. split.
    + intros (k & Heq & _)%list_elem_of_fmap.
      symmetry in Heq. now apply length_key_not_plain in Heq.
    + intros (k & Heq & _)%list_elem_of_fmap.
      symmetry in Heq. now apply pose_key_not_plain in Heq.
  - apply NoDup_cons. split; [|done]. rewrite not_elem_of_app. split.
    + intros (k & Heq & _)%list_elem_of_fmap.
      symmetry in Heq. now apply length_key_not_plain in Heq.
    + intros (k & Heq & _)%list_elem_of_fmap.
      symmetry in Heq. now apply pose_key_not_plain in Heq.
Qed.

(** What the readers find in such an entity. *)
Lemma bumper_properties_count N L lens poses :
  GetProperty (bumper_properties N L lens poses) "bcount" = Some (WfInt N).
Proof. reflexivity. Qed.

Lemma bumper_properties_common N L lens poses :
  GetProperty (bumper_properties N L lens poses) "blength" = Some (WfFloat L).
Proof. reflexivity. Qed.

Lemma bumper_properties_length N L lens poses k l :
  NoDup lens.*1 → NoDup poses.*1 → (k, l) ∈ lens →
  GetProperty (bumper_properties N L lens poses) (length_key k)
  = Some (WfFloat l).
Proof.
  intros Hl Hp Hin. apply GetProperty_Some.
  - now apply bumper_properties_NoDup.
  - unfold bumper_properties. do 2 right. apply elem_of_app. left.
    apply list_elem_of_fmap. now exists (k, l).
Qed.

Lemma bumper_properties_no_length N L lens poses k :
  k ∉ lens.*1 →
  GetProperty (bumper_properties N L lens poses) (length_key k) = None.
Proof.
  intros Hk. apply GetProperty_None. unfold bumper_properties. simpl.
  rewrite fmap_app, length_override_keys, pose_override_keys.
  rewrite !not_elem_of_cons, not_elem_of_app.
  destruct (length_key_not_plain k) as [H1 H2].
  split; [done|]. split; [done|]. split.
  - intros (k' & Heq & Hin)%list_elem_of_fmap.
    apply length_key_inj in Heq. now subst.
  - intros (k' & Heq & _)%list_elem_of_fmap.
    now apply length_key_not_pose_key in Heq.
Qed.

Section LoadOrder.
Context `{MB : ModelBase}.

(** The transducer that [Load] configures depends on what the readers
    find, not on the worldfile otherwise. *)
Lemma loaded_transducer_ext (wf wf' : Worldfile) common i :
  (∀ name, GetProperty wf' name = GetProperty wf name) →
  loaded_transducer wf' common i = loaded_transducer wf common i.
Proof.
  intros Hget. unfold loaded_transducer, ReadTupleLength, ReadTupleAngle,
    ReadLength. now rewrite !Hget.
Qed.

(** [Load] on any arrangement of the properties of a bumper entity. *)
Lemma Load_bumper_properties N L lens poses (wf : Worldfile)
    (m : ModelBumper) :
  1 ≤ N < 2 ^ 31 → NoDup lens.*1 → NoDup poses.*1 →
  wf ≡ₚ bumper_properties N L lens poses →
  ∃ bs,
    Load wf m = Ok (set_base (Model_Load wf (base m))
                      (set_array N (Some bs) m)) ∧
    length bs = Z.to_nat N ∧
    ∀ i, (i < Z.to_nat N)%nat →
         bs !! i = Some (loaded_transducer (bumper_properties N L lens poses)
                           L i).
Proof.
  intros HN Hl Hp Hperm.
  assert (∀ name, GetProperty wf name =
                  GetProperty (bumper_properties N L lens poses) name) as Hget.
  { intros name. apply GetProperty_Permutation; [|done].
    now apply bumper_properties_NoDup. }
  assert (ReadInt wf "bcount" 0 = N) as Hcount.
  { unfold ReadInt. now rewrite Hget, bumper_properties_count. }
  assert (to_uint32 N = N) as Hu.
  { apply to_uint32_small. unfold UINT32_MOD. lia. }
  assert (ReadLength wf "blength" 0%R = L) as Hcommon.
  { unfold ReadLength. now rewrite Hget, bumper_properties_common. }
  destruct (Load_configures wf m) as (bs & Hrun & Hlen & Hcells).
  - unfold PropertyExists. now rewrite Hget, bumper_properties_count.
  - rewrite Hcount, Hu. lia.
  - rewrite Hcount, Hu, Hcommon in *. exists bs. split; [done|].
    split; [done|]. intros i Hi. rewrite Hcells by done.
    f_equal. now apply loaded_transducer_ext.
Qed.

End LoadOrder.

(** C3.  For a count [N >= 1], a common length [L] and lengths declared
    for some indices (each index once), in whatever order the worldfile
    lists its properties, [Load] returns an array of [N] transducers in
    which an index with a declared length has that length and every other
    index has [L]; any other arrangement of the same properties yields
    the same array. *)
Theorem Load_default_then_override `{MB : ModelBase} (N : Z) (L : R)
    (lens : list (Z * R)) (poses : list (Z * Pose)) (wf : Worldfile)
    (m : ModelBumper) :
  1 ≤ N < 2 ^ 31 → NoDup lens.*1 → NoDup poses.*1 →
  wf ≡ₚ bumper_properties N L lens poses →
  ∃ m' bs,
    Load wf m = Ok m' ∧ bumper_count m' = N ∧ bumpers m' = Some bs ∧
    length bs = Z.to_nat N ∧
    (∀ i l, 0 ≤ i < N → (i, l) ∈ lens →
            cfg_length <$> bs !! Z.to_nat i = Some l) ∧
    (∀ i, 0 ≤ i < N → i ∉ lens.*1 →
          cfg_length <$> bs !! Z.to_nat i = Some L) ∧
    (∀ wf', wf' ≡ₚ wf →
            ∃ m'', Load wf' m = Ok m'' ∧ bumper_count m'' = N ∧
                   bumpers m'' = Some bs).
Proof.
  intros HN Hl Hp Hperm.
  destruct (Load_bumper_properties N L lens poses wf m HN Hl Hp Hperm)
    as (bs & Hrun & Hlen & Hcells).
  eexists _, bs. split; [exact Hrun|]. simpl.
  split; [done|]. split; [done|]. split; [done|]. split; [|split].
  - intros i l Hi Hin. rewrite Hcells by lia. simpl. f_equal.
    unfold ReadLength. rewrite blength_key_small by lia.
    now rewrite (bumper_properties_length N L lens poses i l).
  - intros i Hi Hnin. rewrite Hcells by lia. simpl. f_equal.
    unfold ReadLength. rewrite blength_key_small by lia.
    now rewrite bumper_properties_no_length.
  - intros wf' Hperm'.
    destruct (Load_bumper_properties N L lens poses wf' m HN Hl Hp)
      as (bs' & Hrun' & Hlen' & Hcells'); [now rewrite Hperm'|].
    eexists. split; [exact Hrun'|]. simpl. split; [done|]. f_equal.
    apply list_eq. intros i. destruct (decide (i < Z.to_nat N)%nat).
    + now rewrite Hcells, Hcells'.
    + rewrite !lookup_ge_None_2; [done | lia | lia].
Qed.

Lemma Load_default_then_override_witness :
  ∃ m' bs,
    @Load plain_base jumbled_properties new_bumper = Ok m' ∧
    bumper_count m' = 3 ∧ bumpers m' = Some bs ∧
    cfg_length <$> bs !! 0%nat = Some 0.2%R ∧
    cfg_length <$> bs !! 1%nat = Some 0.1%R ∧
    cfg_length <$> bs !! 2%nat = Some 0.3%R.
Proof.
  destruct (@Load_default_then_override plain_base 3 0.1
              [(0, 0.2%R); (2, 0.3%R)] [(1, mkPose 1 0 0 0)]
              jumbled_properties new_bumper)
    as (m' & bs & Hrun & Hc & Hbs & _ & Hov & Hdef & _).
  - lia.
  - apply NoDup_ListNoDup. repeat constructor; simpl; intuition lia.
  - apply NoDup_ListNoDup. repeat constructor; simpl; intuition lia.
  - symmetry. unfold jumbled_properties, bumper_properties.
    cbn [fmap list_fmap app].
    apply (@Permutation_cons_app _ _ [_; _; _; _] []). cbn [app].
    apply (@Permutation_cons_app _ _ [_] [_; _]). cbn [app].
    apply (@Permutation_cons_app _ _ [_; _] []). reflexivity.
  - exists m', bs. split; [exact Hrun|]. split; [exact Hc|].
    split; [exact Hbs|]. split; [|split].
    + apply (Hov 0 0.2%R); [lia | left].
    + apply (Hdef 1); [lia|]. simpl. rewrite !not_elem_of_cons.
      split; [lia|]. split; [lia|]. apply not_elem_of_nil.
    + apply (Hov 2 0.3%R); [lia | right; left].
Defined.

(** ** Samples *)

(** Two ticks of the bumper of the scenarios: the wall is in the way
    during the first and gone during the second.  After the second the
    cell reads no hit and still holds the point of the first tick. *)
Lemma stale_hit_point :
  @Update plain_base (world_engine wall_world) started_bumper =
    Ok (bumper_after_hit, [mkCast (mkPose 0 (-0.1) 0 (PI / 2)) 0.2]) ∧
  @Update plain_base (world_engine empty_world) bumper_after_hit =
    Ok (bumper_after_miss, [mkCast (mkPose 0 (-0.1) 0 (PI / 2)) 0.2]) ∧
  ¬ point_present_iff_hit (mkSample None (Some (mkPoint 0 (-0.05)))).
Proof.
  split; [exact scenario_A|]. split.
  - rewrite (@Update_explicit plain_base (world_engine empty_world)
               bumper_after_hit [strip]);
      [| reflexivity | simpl; lia | reflexivity | reflexivity].
    cbn [fmap list_fmap]. rewrite strip_probe_cast. reflexivity.
  - unfold point_present_iff_hit. simpl. intros [Hp _].
    destruct Hp as [x Hx]; [now eexists | discriminate].
Qed.

(** C4 (amended).  After an [Update] of a configured model, for every
    transducer index [t], the hit flag of cell [t] is set exactly when
    the cast of [t] returned a hit model; when it did, the point of the
    cell is the intersection point of that cast; when the cast missed,
    the point is left as it was before the [Update]: unwritten in a
    buffer that this [Update] allocated, and otherwise whatever an
    earlier tick stored. *)
Theorem Update_sample_of_cast `{MB : ModelBase} `{EN : Engine}
    (m : ModelBumper) (bs : list bumper_config_t) :
  bumpers m = Some bs → 1 ≤ bumper_count m →
  length bs = Z.to_nat (bumper_count m) →
  length (cells_before m) = Z.to_nat (bumper_count m) →
  ∃ m' casts buf,
    Update m = Ok (m', casts) ∧ samples m' = Some buf ∧
    length (buf_cells buf) = Z.to_nat (bumper_count m) ∧
    ∀ t, (t < Z.to_nat (bumper_count m))%nat →
      ∃ c s0 s,
        casts !! t = Some c ∧ cells_before m !! t = Some s0 ∧
        buf_cells buf !! t = Some s ∧
        hit s = ray_mod (Raytrace (self m) (cast_pose c) (cast_range c)
                                  bumper_match) ∧
        (is_Some (hit s) →
         hit_point s =
           Some (mkPoint
                   (pose_x (ray_pose (Raytrace (self m) (cast_pose c)
                                               (cast_range c) bumper_match)))
                   (pose_y (ray_pose (Raytrace (self m) (cast_pose c)
                                               (cast_range c) bumper_match))))) ∧
        (hit s = None → hit_point s = hit_point s0) ∧
        (hit s = None → samples m = None → hit_point s = None).
Proof.
  intros Hbs Hc Hlen Hcells.
  destruct (Update_runs m bs Hbs Hc Hlen Hcells)
    as (m' & cells & Hrun & Hs & _ & _ & _ & _ & _ & _ & Hl & Hk).
  eexists m', _, _. split; [exact Hrun|]. split; [exact Hs|].
  split; [exact Hl|]. intros t Ht.
  destruct (lookup_lt_is_Some_2 bs t) as [b Hb]; [lia|].
  destruct (lookup_lt_is_Some_2 (cells_before m) t) as [s0 Hs0]; [lia|].
  exists (probe_cast b), s0, (sensed (self m) b s0).
  rewrite list_lookup_fmap, Hb. simpl.
  split; [done|]. split; [done|]. split; [now apply Hk|].
  split; [done|]. unfold sensed, probe_ray. simpl.
  destruct (ray_mod _) as [c|]; simpl.
  - split; [done|]. split; discriminate.
  - split; [now intros [? ?]|]. split; [done|]. intros _ Hnone.
    unfold cells_before in Hs0. rewrite Hnone in Hs0.
    apply lookup_replicate in Hs0 as [-> _]. done.
Qed.

Lemma Update_sample_of_cast_witness :
  ∃ m' casts buf,
    @Update plain_base (world_engine empty_world) bumper_after_hit
      = Ok (m', casts) ∧
    samples m' = Some buf ∧ length (buf_cells buf) = 1%nat.
Proof.
  destruct (@Update_sample_of_cast plain_base (world_engine empty_world)
              bumper_after_hit [strip])
    as (m' & casts & buf & Hrun & Hs & Hl & _);
    [reflexivity | simpl; lia | reflexivity | reflexivity |].
  exists m', casts, buf. split; [exact Hrun|]. split; [exact Hs | exact Hl].
Defined.

(** ** Reconfiguration *)

Section Reload.
Context `{MB : ModelBase}.

(** [Load] with a count key, in terms of the value stored under it. *)
Lemma Load_count (wf : Worldfile) (m : ModelBumper) (z : Z) :
  GetProperty wf "bcount" = Some (WfInt z) → to_uint32 z > 0 →
  ∃ bs,
    Load wf m = Ok (set_base (Model_Load wf (base m))
                      (set_array (to_uint32 z) (Some bs) m)) ∧
    length bs = Z.to_nat (to_uint32 z) ∧
    ∀ i, (i < Z.to_nat (to_uint32 z))%nat →
         bs !! i = Some (loaded_transducer wf (ReadLength wf "blength" 0%R) i).
Proof.
  intros Hget Hpos.
  assert (ReadInt wf "bcount" 0 = z) as Hz by (unfold ReadInt; now rewrite Hget).
  destruct (Load_configures wf m) as (bs & Hrun & Hlen & Hcells).
  - unfold PropertyExists. now rewrite Hget.
  - now rewrite Hz.
  - rewrite Hz in *. exists bs. done.
Qed.

(** [Load] never touches the sample buffer. *)
Lemma Load_keeps_samples (wf : Worldfile) (m m' : ModelBumper) :
  Load wf m = Ok m' →
  samples m' = samples m ∧ heap_next m' = heap_next m ∧
  watts m' = watts m ∧ self m' = self m.
Proof.
  unfold Load. destruct (PropertyExists wf "bcount").
  - case_decide; [|discriminate].
    destruct (for_upto _ (Load_common _) _) as [bs1|]; simpl; [|discriminate].
    destruct (for_upto _ (Load_individual _) _) as [bs2|]; simpl;
      [|discriminate].
    now intros [= <-].
  - simpl. now intros [= <-].
Qed.

(** A model that returns from [Load] with a count key has a positive
    count and an array of that many transducers. *)
Lemma Load_configured (wf : Worldfile) (m m' : ModelBumper) :
  Load wf m = Ok m' → PropertyExists wf "bcount" = true →
  bumper_count m' > 0 ∧ configured (bumper_count m') m'.
Proof.
  intros Hrun Hex.
  destruct (decide (to_uint32 (ReadInt wf "bcount" 0) > 0)) as [Hpos|Hz].
  - destruct (Load_configures wf m Hex Hpos) as (bs & Hrun' & Hlen & _).
    rewrite Hrun' in Hrun. injection Hrun as <-. simpl.
    split; [done|]. split; [done|]. now exists bs.
  - rewrite Load_asserts in Hrun; [discriminate | done |].
    pose proof (to_uint32_range (ReadInt wf "bcount" 0)). lia.
Qed.

End Reload.

(** C5 (scenario C, as the code runs it).  A model is loaded with one
    transducer, started and updated, which allocates a buffer of one
    cell; it is then loaded again with three transducers.  The second
    [Load] leaves the buffer of one cell in place, and the next [Update],
    finding a buffer, allocates none and stores past its end. *)
Theorem reload_keeps_stale_buffer `{MB : ModelBase} `{EN : Engine}
    (me : Model) (b : BaseState) (w : R) (next : nat) :
  ∃ m1 m2 casts cells m3,
    Load one_bumper (ModelBumper_new me b w next) = Ok m1 ∧
    Update (Startup m1) = Ok (m2, casts) ∧
    samples m2 = Some (mkBuffer next cells) ∧ length cells = 1%nat ∧
    Load three_bumpers m2 = Ok m3 ∧
    bumper_count m3 = 3 ∧
    samples m3 = Some (mkBuffer next cells) ∧
    heap_next m3 = heap_next m2 ∧
    Update m3 = Fault OutOfBounds.
Proof.
  assert (to_uint32 1 = 1) as H1 by reflexivity.
  assert (to_uint32 3 = 3) as H3 by reflexivity.
  destruct (Load_count one_bumper (ModelBumper_new me b w next) 1)
    as (bs1 & Hload1 & Hlen1 & _); [reflexivity | reflexivity |].
  rewrite H1 in *.
  eexists. rewrite Hload1.
  destruct (Update_runs
    (Startup (set_base (Model_Load one_bumper (base (ModelBumper_new me b w next)))
                (set_array 1 (Some bs1) (ModelBumper_new me b w next)))) bs1)
    as (m2 & cells & Hrun & Hs & Hn & Hb & Hcount & _ & _ & _ & Hl & _);
    [reflexivity | simpl; lia | exact Hlen1 | reflexivity |].
  simpl in Hs, Hn, Hl.
  destruct (Load_count three_bumpers m2 3)
    as (bs3 & Hload3 & Hlen3 & _); [reflexivity | reflexivity |].
  rewrite H3 in *.
  exists m2, (probe_cast <$> bs1), cells. eexists.
  split; [reflexivity|]. split; [exact Hrun|]. split; [exact Hs|].
  split; [exact Hl|]. split; [exact Hload3|]. simpl.
  split; [reflexivity|]. split; [exact Hs|]. split; [reflexivity|].
  apply (Update_overruns _ bs3 (mkBuffer next cells)); simpl.
  - reflexivity.
  - lia.
  - rewrite Hlen3. lia.
  - exact Hs.
  - rewrite Hl. lia.
Qed.

(** ** The lifecycle *)

Section Lifecycle.
Context `{MB : ModelBase}.

(** Updates of a configured model with a buffer of the right size keep
    the array, the buffer object and the allocation count. *)
Lemma run_updates_reuse (ticks : list Engine) (m : ModelBumper) n id cells :
  1 ≤ n → configured n m →
  samples m = Some (mkBuffer id cells) → length cells = Z.to_nat n →
  ∃ m' cells',
    run_updates ticks m = Ok m' ∧ configured n m' ∧
    bumpers m' = bumpers m ∧
    samples m' = Some (mkBuffer id cells') ∧ length cells' = Z.to_nat n ∧
    heap_next m' = heap_next m.
Proof.
  revert m cells. induction ticks as [|EN later IH];
    intros m cells Hn Hconf Hs Hl; simpl.
  - exists m, cells. done.
  - destruct Hconf as [Hcount (bs & Hbs & Hlen)]. subst n.
    destruct (@Update_runs MB EN m bs)
      as (m1 & cells1 & Hrun & Hs1 & Hn1 & Hb1 & Hc1 & _ & _ & _ & Hl1 & _);
      [done | done | done | unfold cells_before; now rewrite Hs |].
    rewrite Hrun. simpl. rewrite Hs in Hs1, Hn1. simpl in Hs1.
    destruct (IH m1 cells1) as (m' & cells' & Hrun' & Hconf' & Hb' & Hs' & Hl' & Hn');
      [lia | | done | done |].
    { split; [done|]. now exists bs. }
    exists m', cells'. split; [done|]. split; [done|].
    split; [congruence|]. split; [done|]. split; [done | congruence].
Qed.

End Lifecycle.

(** C6.  A model that is constructed, loaded with a count [N >= 1] and
    started has no sample buffer; its first [Update] allocates one buffer
    of exactly [N] cells; every later [Update] returns with that same
    buffer object, still of [N] cells, and allocates nothing. *)
Theorem lazy_allocation `{MB : ModelBase} (wf : Worldfile) (N : Z)
    (me : Model) (b : BaseState) (w : R) (next : nat)
    (first : Engine) (later : list Engine) :
  GetProperty wf "bcount" = Some (WfInt N) → 1 ≤ N < 2 ^ 31 →
  ∃ m0 m1 casts cells1 mk cellsk,
    Load wf (ModelBumper_new me b w next) = Ok m0 ∧
    samples (Startup m0) = None ∧
    heap_next (Startup m0) = next ∧
    @Update MB first (Startup m0) = Ok (m1, casts) ∧
    samples m1 = Some (mkBuffer next cells1) ∧
    length cells1 = Z.to_nat N ∧
    heap_next m1 = S next ∧
    run_updates later m1 = Ok mk ∧
    samples mk = Some (mkBuffer next cellsk) ∧
    length cellsk = Z.to_nat N ∧
    heap_next mk = S next.
Proof.
  intros Hget HN.
  assert (to_uint32 N = N) as Hu by (apply to_uint32_small; unfold UINT32_MOD; lia).
  destruct (Load_count wf (ModelBumper_new me b w next) N)
    as (bs & Hload & Hlen & _); [done | lia |].
  rewrite Hu in *.
  eexists. rewrite Hload.
  destruct (@Update_runs MB first
    (Startup (set_base (Model_Load wf (base (ModelBumper_new me b w next)))
                (set_array N (Some bs) (ModelBumper_new me b w next)))) bs)
    as (m1 & cells1 & Hrun & Hs & Hn & Hb & Hcount & _ & _ & _ & Hl & _);
    [reflexivity | simpl; lia | exact Hlen | |].
  { unfold cells_before. simpl. now rewrite length_replicate. }
  simpl in Hs, Hn, Hl, Hcount.
  destruct (run_updates_reuse later m1 N next cells1)
    as (mk & cellsk & Hrunk & _ & _ & Hsk & Hlk & Hnk);
    [lia | | done | done |].
  { split; [done|]. now exists bs. }
  exists m1, (probe_cast <$> bs), cells1, mk, cellsk.
  split; [reflexivity|]. split; [reflexivity|]. split; [reflexivity|].
  split; [exact Hrun|]. split; [exact Hs|]. split; [exact Hl|].
  split; [exact Hn|]. split; [exact Hrunk|]. split; [exact Hsk|].
  split; [exact Hlk | congruence].
Qed.

Lemma lazy_allocation_witness :
  ∃ m0 m1 casts cells1 mk cellsk,
    @Load plain_base three_bumpers new_bumper = Ok m0 ∧
    @Update plain_base (world_engine wall_world) (Startup m0) = Ok (m1, casts) ∧
    samples m1 = Some (mkBuffer 0 cells1) ∧ length cells1 = 3%nat ∧
    @run_updates plain_base
      [world_engine empty_world; world_engine family_world] m1 = Ok mk ∧
    samples mk = Some (mkBuffer 0 cellsk) ∧ length cellsk = 3%nat ∧
    heap_next mk = 1%nat.
Proof.
  destruct (@lazy_allocation plain_base three_bumpers 3 bumper_model tt 0%R 0
              (world_engine wall_world)
              [world_engine empty_world; world_engine family_world])
    as (m0 & m1 & casts & cells1 & mk & cellsk & Hload & _ & _ & Hrun & Hs
        & Hl & _ & Hrunk & Hsk & Hlk & Hnk);
    [reflexivity | lia |].
  exists m0, m1, casts, cells1, mk, cellsk.
  repeat (split; [assumption|]). assumption.
Defined.

(** C7.  Without a transducer array, or with a count of 0 (for the
    unsigned counter: a count below 1), [Update] returns having cast no
    ray and allocated nothing; the sample buffer, the array and the count
    are as before. *)
Theorem Update_unconfigured_is_noop `{MB : ModelBase} `{EN : Engine}
    (m : ModelBumper) :
  bumpers m = None ∨ bumper_count m < 1 →
  ∃ m',
    Update m = Ok (m', []) ∧
    samples m' = samples m ∧ heap_next m' = heap_next m ∧
    bumpers m' = bumpers m ∧ bumper_count m' = bumper_count m ∧
    watts m' = watts m ∧ self m' = self m.
Proof.
  intros Hun. exists (set_base (Model_Update (base m)) m).
  split; [now apply Update_unconfigured | done].
Qed.

Lemma Update_unconfigured_is_noop_witness :
  ∃ m',
    @Update plain_base (world_engine wall_world) new_bumper = Ok (m', []) ∧
    samples m' = None ∧ heap_next m' = 0%nat ∧ bumpers m' = None.
Proof.
  destruct (@Update_unconfigured_is_noop plain_base (world_engine wall_world)
              new_bumper) as (m' & Hrun & Hs & Hn & Hb & _);
    [left; reflexivity|].
  exists m'. split; [exact Hrun|]. split; [exact Hs|].
  split; [exact Hn | exact Hb].
Defined.

(** C8.  [Startup] sets the power draw to the operating wattage of the
    bumper, 0.1 W.  [Shutdown] sets it to zero and frees the sample
    buffer, and keeps the array and the count; a second [Shutdown]
    leaves the same: zero watts, no buffer, the same array. *)
Theorem Startup_Shutdown_power `{MB : ModelBase} (m : ModelBumper) :
  watts (Startup m) = 0.1%R ∧
  bumpers (Startup m) = bumpers m ∧ samples (Startup m) = samples m ∧
  watts (Shutdown m) = 0%R ∧ samples (Shutdown m) = None ∧
  bumpers (Shutdown m) = bumpers m ∧
  bumper_count (Shutdown m) = bumper_count m ∧
  heap_next (Shutdown m) = heap_next m ∧
  watts (Shutdown (Shutdown m)) = watts (Shutdown m) ∧
  samples (Shutdown (Shutdown m)) = samples (Shutdown m) ∧
  bumpers (Shutdown (Shutdown m)) = bumpers (Shutdown m) ∧
  bumper_count (Shutdown (Shutdown m)) = bumper_count (Shutdown m).
Proof.
  unfold Startup, Shutdown. destruct m as [me b w n bs [buf|] nx]; simpl; done.
Qed.

(** ** The count assertion *)

(** A count of 0 trips the assertion. *)
Lemma Load_zero_count `{MB : ModelBase} (m : ModelBumper) :
  Load [("bcount", WfInt 0)] m = Fault AssertionFailed.
Proof. now apply Load_asserts. Qed.

(** C9 (at the failing input).  With [bcount -1] the value read is
    converted to the unsigned counter, which then holds 4294967295; the
    assertion [bumper_count > 0] passes and [Load] configures an array of
    that many transducers. *)
Theorem Load_negative_count_passes `{MB : ModelBase} (m : ModelBumper) :
  ∃ m' bs,
    Load [("bcount", WfInt (-1))] m = Ok m' ∧
    bumper_count m' = 4294967295 ∧
    bumpers m' = Some bs ∧ length bs = Z.to_nat 4294967295.
Proof.
  destruct (Load_count [("bcount", WfInt (-1))] m (-1))
    as (bs & Hload & Hlen & _); [reflexivity | reflexivity |].
  change (to_uint32 (-1)) with 4294967295 in Hload, Hlen.
  eexists _, bs. split; [exact Hload|].
  split; [reflexivity|]. split; [reflexivity | exact Hlen].
Qed.

(** ** A missing common length *)

(** C10.  With a count and no [blength] key the common length read is 0:
    [Load] returns, and every index without a [blength[i]] key of its own
    gets length 0, neither rejected nor replaced.  The [Update] that
    follows casts the ray of such an index with range 0, whatever the
    engine; in a world the cast sweeps nothing and the cell reads no
    hit. *)
Theorem Load_without_common_length `{MB : ModelBase} (idx : SpatialIndex)
    (wf : Worldfile) (N : Z) (m : ModelBumper) :
  GetProperty wf "bcount" = Some (WfInt N) → 1 ≤ N < 2 ^ 31 →
  GetProperty wf "blength" = None →
  (∀ buf, samples m = Some buf → length (buf_cells buf) = Z.to_nat N) →
  ∃ m0 bs,
    Load wf m = Ok m0 ∧ bumper_count m0 = N ∧ bumpers m0 = Some bs ∧
    length bs = Z.to_nat N ∧
    (∀ i, (i < Z.to_nat N)%nat → GetProperty wf (blength_key i) = None →
          cfg_length <$> bs !! i = Some 0%R) ∧
    (∀ EN : Engine, ∃ m1 casts,
        @Update MB EN m0 = Ok (m1, casts) ∧ length casts = Z.to_nat N ∧
        ∀ i, (i < Z.to_nat N)%nat → GetProperty wf (blength_key i) = None →
             cast_range <$> casts !! i = Some 0%R) ∧
    (∃ m1 casts buf,
        @Update MB (world_engine idx) m0 = Ok (m1, casts) ∧
        samples m1 = Some buf ∧
        ∀ i, (i < Z.to_nat N)%nat → GetProperty wf (blength_key i) = None →
             hit <$> buf_cells buf !! i = Some None).
Proof.
  intros Hget HN Hnone Hbuf.
  assert (to_uint32 N = N) as Hu by (apply to_uint32_small; unfold UINT32_MOD; lia).
  destruct (Load_count wf m N) as (bs & Hload & Hlen & Hcells); [done | lia |].
  rewrite Hu in *.
  assert (ReadLength wf "blength" 0%R = 0%R) as Hcommon
    by (unfold ReadLength; now rewrite Hnone).
  rewrite Hcommon in Hcells.
  assert (∀ i, (i < Z.to_nat N)%nat → GetProperty wf (blength_key i) = None →
               ∃ b, bs !! i = Some b ∧ cfg_length b = 0%R) as Hzero.
  { intros i Hi Hk. eexists. split; [now apply Hcells|].
    simpl. unfold ReadLength. now rewrite Hk. }
  set (m0 := set_base (Model_Load wf (base m)) (set_array N (Some bs) m)) in *.
  assert (∀ EN : Engine, ∃ m1 cells,
            @Update MB EN m0 = Ok (m1, probe_cast <$> bs) ∧
            samples m1 = Some (mkBuffer (match samples m with
                                         | Some buf => buf_id buf
                                         | None => heap_next m
                                         end) cells) ∧
            ∀ k b s0, bs !! k = Some b → cells_before m0 !! k = Some s0 →
                      cells !! k = Some (@sensed MB EN (self m) b s0)) as Hupd.
  { intros EN.
    destruct (@Update_runs MB EN m0 bs)
      as (m1 & cells & Hrun & Hs & _ & _ & _ & _ & _ & _ & _ & Hk);
      [reflexivity | simpl; lia | exact Hlen | |].
    - unfold cells_before. simpl. destruct (samples m) as [buf|] eqn:Hsm.
      + now apply Hbuf.
      + now rewrite length_replicate.
    - exists m1, cells. done. }
  exists m0, bs. split; [exact Hload|]. split; [reflexivity|].
  split; [reflexivity|]. split; [exact Hlen|]. split; [|split].
  - intros i Hi Hk. destruct (Hzero i Hi Hk) as (b & -> & Hb). simpl.
    now rewrite Hb.
  - intros EN. destruct (Hupd EN) as (m1 & cells & Hrun & _).
    exists m1, (probe_cast <$> bs). split; [exact Hrun|].
    split; [now rewrite length_fmap|].
    intros i Hi Hk. destruct (Hzero i Hi Hk) as (b & Hb & Hb0).
    rewrite list_lookup_fmap, Hb. simpl. now rewrite Hb0.
  - destruct (Hupd (world_engine idx)) as (m1 & cells & Hrun & Hs & Hk).
    eexists m1, _, _. split; [exact Hrun|]. split; [exact Hs|].
    intros i Hi Hkey. destruct (Hzero i Hi Hkey) as (b & Hb & Hb0).
    destruct (lookup_lt_is_Some_2 (cells_before m0) i) as [s0 Hs0].
    { unfold cells_before. simpl. destruct (samples m) as [buf|] eqn:Hsm.
      - rewrite (Hbuf buf eq_refl). lia.
      - now rewrite length_replicate. }
    simpl. rewrite (Hk i b s0 Hb Hs0). simpl. f_equal.
    unfold probe_ray. rewrite Hb0. simpl. apply World_Raytrace_zero.
Qed.

Lemma Load_without_common_length_witness :
  ∃ m0 bs m1 casts buf,
    @Load plain_base no_common_length new_bumper = Ok m0 ∧
    bumpers m0 = Some bs ∧
    cfg_length <$> bs !! 0%nat = Some 0%R ∧
    @Update plain_base (world_engine wall_world) m0 = Ok (m1, casts) ∧
    samples m1 = Some buf ∧
    hit <$> buf_cells buf !! 0%nat = Some None.
Proof.
  destruct (@Load_without_common_length plain_base wall_world
              no_common_length 2 new_bumper)
    as (m0 & bs & Hload & _ & Hbs & _ & Hzero & _ & m1 & casts & buf & Hrun
        & Hs & Hmiss);
    [reflexivity | lia | reflexivity | discriminate |].
  exists m0, bs, m1, casts, buf.
  split; [exact Hload|]. split; [exact Hbs|].
  split; [apply Hzero; [simpl; lia | reflexivity]|].
  split; [exact Hrun|]. split; [exact Hs|].
  apply Hmiss; [simpl; lia | reflexivity].
Defined.

(** * Further properties *)

(** ** The sizes of the two arrays *)

Section Sized.
Context `{MB : ModelBase}.

Lemma sized_new me b w next : sized (ModelBumper_new me b w next).
Proof. reflexivity. Qed.

Lemma sized_Startup (m : ModelBumper) : sized m → sized (Startup m).
Proof. unfold sized, Startup. now destruct m as [me b w n [bs|] sm nx]. Qed.

Lemma sized_Shutdown (m : ModelBumper) :
  sized m → sized (Shutdown m) ∧ samples (Shutdown m) = None.
Proof.
  unfold sized, Shutdown.
  destruct m as [me b w n [bs|] [buf|] nx]; simpl; try done;
    intros (Hn & Hl & _); done.
Qed.

(** [Update] on a sized model returns a sized model. *)
Lemma sized_Update `{EN : Engine} (m : ModelBumper) :
  sized m → ∃ m' casts, Update m = Ok (m', casts) ∧ sized m'.
Proof.
  unfold sized. intros Hm. destruct (bumpers m) as [bs|] eqn:Hbs.
  - destruct Hm as (Hn & Hl & Hbuf).
    destruct (Update_runs m bs Hbs Hn Hl)
      as (m' & cells & Hrun & Hs & _ & Hb & Hc & _ & _ & _ & Hlc & _).
    { unfold cells_before. destruct (samples m) as [buf|].
      - now apply Hbuf.
      - now rewrite length_replicate. }
    exists m', (probe_cast <$> bs). split; [done|].
    rewrite Hb, Hc. split; [done|]. split; [done|].
    intros buf. rewrite Hs. now intros [= <-].
  - exists (set_base (Model_Update (base m)) m), [].
    split; [apply Update_unconfigured; now left|]. simpl. now rewrite Hbs.
Qed.

(** [Load] either trips its assertion or returns; it returns a sized
    model if it found no sample buffer or no count key. *)
Lemma sized_Load (wf : Worldfile) (m : ModelBumper) :
  sized m → samples m = None ∨ PropertyExists wf "bcount" = false →
  Load wf m = Fault AssertionFailed ∨
  ∃ m', Load wf m = Ok m' ∧ sized m' ∧ samples m' = samples m.
Proof.
  intros Hm Hok. destruct (PropertyExists wf "bcount") eqn:Hex.
  - destruct Hok as [Hnone|]; [|done].
    destruct (decide (to_uint32 (ReadInt wf "bcount" 0) > 0)) as [Hpos|Hz].
    + destruct (Load_configures wf m Hex Hpos) as (bs & Hrun & Hlen & _).
      right. eexists. split; [exact Hrun|]. unfold sized. simpl.
      split; [|done]. split; [lia|]. split; [done|]. now rewrite Hnone.
    + left. apply Load_asserts; [done|].
      pose proof (to_uint32_range (ReadInt wf "bcount" 0)). lia.
  - right. rewrite (Load_no_count wf m Hex). eexists. split; [done|].
    split; [|done]. unfold sized in *. simpl.
    destruct (bumpers m); done.
Qed.

End Sized.

(** X1.  Calls of Load, Startup, Shutdown and Update in any order in which
    a count is loaded only while the model has no sample buffer never
    read or write past the end of an array: the run returns, with both
    arrays of the size the count says, unless a [Load] trips its
    assertion. *)
Theorem lifecycle_stays_in_bounds `{MB : ModelBase} (ops : list op)
    (buffered : bool) (m : ModelBumper) :
  sized m → (buffered = false → samples m = None) →
  loads_while_stopped buffered ops = true →
  run ops m = Fault AssertionFailed ∨ ∃ m', run ops m = Ok m' ∧ sized m'.
Proof.
  revert buffered m.
  induction ops as [|o later IH]; intros buffered m Hm Hbuf Hops; simpl.
  - right. now exists m.
  - destruct o as [wf| | |EN]; simpl in *.
    + apply andb_true_iff in Hops as [Hguard Hlater].
      destruct (sized_Load wf m Hm) as [->|(m' & -> & Hm' & Hs)]; [|now left|].
      { apply orb_true_iff in Hguard as [Hb|Hk].
        - left. apply Hbuf. now destruct buffered.
        - right. now destruct (PropertyExists wf "bcount"). }
      simpl. apply (IH buffered); [done | | done].
      intros Hb. rewrite Hs. now apply Hbuf.
    + apply (IH buffered); [now apply sized_Startup | | done].
      intros Hb. destruct m as [me b w n bs sm nx]. simpl. now apply Hbuf.
    + destruct (sized_Shutdown m Hm) as [Hm' Hs].
      apply (IH false); done.
    + destruct (@sized_Update MB EN m Hm) as (m' & casts & -> & Hm').
      simpl. apply (IH true); done.
Qed.

Lemma lifecycle_stays_in_bounds_witness :
  @run plain_base busy_day new_bumper = Fault AssertionFailed ∨
  ∃ m', @run plain_base busy_day new_bumper = Ok m' ∧ sized m'.
Proof.
  apply (@lifecycle_stays_in_bounds plain_base busy_day false new_bumper);
    reflexivity.
Defined.

(** ** More about Load *)



(** X3.  A [Load] with a count key writes every field of every transducer
    from the worldfile: the array it leaves is a function of the
    worldfile alone, whatever array the model had before and whatever
    [new[]] returned. *)
Theorem Load_replaces_whole_array `{MB : ModelBase} (wf : Worldfile)
    (m m' : ModelBumper) :
  Load wf m = Ok m' → PropertyExists wf "bcount" = true →
  bumper_count m' = ReadInt wf "bcount" 0 mod 2 ^ 32 ∧
  bumpers m' =
    Some ((λ i,
            mkConfig
              (mkPose (ReadTupleLength wf (bpose_key i) 0 0%R)
                      (ReadTupleLength wf (bpose_key i) 1 0%R)
                      (ReadTupleLength wf (bpose_key i) 2 0%R)
                      (ReadTupleAngle wf (bpose_key i) 3 0%R))
              (ReadLength wf (blength_key i) (ReadLength wf "blength" 0%R)))
          <$> seq 0 (Z.to_nat (bumper_count m'))) ∧
  ∀ (m1 m1' : ModelBumper),
    Load wf m1 = Ok m1' →
    bumpers m1' = bumpers m' ∧ bumper_count m1' = bumper_count m'.
Proof.
  intros Hrun Hex.
  assert (∀ (x x' : ModelBumper), Load wf x = Ok x' →
    bumper_count x' = to_uint32 (ReadInt wf "bcount" 0) ∧
    bumpers x' =
      Some (loaded_transducer wf (ReadLength wf "blength" 0%R)
            <$> seq 0 (Z.to_nat (bumper_count x')))) as Hform.
  { intros x x' Hx.
    destruct (decide (to_uint32 (ReadInt wf "bcount" 0) > 0)) as [Hpos|Hz].
    - destruct (Load_configures wf x Hex Hpos) as (bs & Hrun' & Hlen & Hcells).
      rewrite Hrun' in Hx. injection Hx as <-. simpl. split; [done|].
      f_equal. apply list_eq. intros i.
      destruct (decide (i < Z.to_nat (to_uint32 (ReadInt wf "bcount" 0)))%nat).
      + rewrite Hcells by done. rewrite list_lookup_fmap, lookup_seq_lt by done.
        done.
      + rewrite !lookup_ge_None_2; [done | | lia].
        rewrite length_fmap, length_seq. lia.
    - rewrite Load_asserts in Hx; [discriminate | done |].
      pose proof (to_uint32_range (ReadInt wf "bcount" 0)). lia. }
  destruct (Hform m m' Hrun) as [Hc Hb].
  split; [exact Hc|]. split; [exact Hb|].
  intros m1 m1' Hrun1. destruct (Hform m1 m1' Hrun1) as [Hc1 Hb1].
  split; [|congruence]. rewrite Hb1, Hb. now rewrite Hc1, Hc.
Qed.

Lemma Load_replaces_whole_array_witness :
  ∃ m',
    @Load plain_base three_bumpers bumper_after_hit = Ok m' ∧
    bumper_count m' = 3 ∧
    bumpers m' = Some [mkConfig (mkPose 0 0 0 0) 0.2;
                       mkConfig (mkPose 0 0 0 0) 0.2;
                       mkConfig (mkPose 0 0 0 0) 0.2].
Proof.
  destruct (@Load_count plain_base three_bumpers bumper_after_hit 3)
    as (bs & Hrun & _); [reflexivity | reflexivity |].
  eexists. split; [exact Hrun|].
  destruct (@Load_replaces_whole_array plain_base three_bumpers
              bumper_after_hit _ Hrun eq_refl) as (Hc & Hb & _).
  split; [exact Hc|]. rewrite Hb. rewrite Hc. reflexivity.
Defined.

Lemma bpose_key_small (i : Z) :
  0 ≤ i < 2 ^ 31 → bpose_key (Z.to_nat i) = pose_key i.
Proof.
  intros Hi. unfold bpose_key, as_int32.
  rewrite Z2Nat.id by lia. now rewrite decide_True by lia.
Qed.

Lemma bumper_properties_pose N L lens poses k p :
  NoDup lens.*1 → NoDup poses.*1 → (k, p) ∈ poses →
  GetProperty (bumper_properties N L lens poses) (pose_key k)
  = Some (WfTuple [pose_x p; pose_y p; pose_z p; pose_a p]).
Proof.
  intros Hl Hp Hin. apply GetProperty_Some.
  - now apply bumper_properties_NoDup.
  - unfold bumper_properties. do 2 right. apply elem_of_app. right.
    apply list_elem_of_fmap. now exists (k, p).
Qed.

Lemma bumper_properties_no_pose N L lens poses k :
  k ∉ poses.*1 →
  GetProperty (bumper_properties N L lens poses) (pose_key k) = None.
Proof.
  intros Hk. apply GetProperty_None. unfold bumper_properties. simpl.
  rewrite fmap_app, length_override_keys, pose_override_keys.
  rewrite !not_elem_of_cons, not_elem_of_app.
  destruct (pose_key_not_plain k) as [H1 H2].
  split; [done|]. split; [done|]. split.
  - intros (k' & Heq & _)%list_elem_of_fmap.
    symmetry in Heq. now apply length_key_not_pose_key in Heq.
  - intros (k' & Heq & Hin)%list_elem_of_fmap.
    apply pose_key_inj in Heq. now subst.
Qed.

(** X4.  The pose of transducer [i] after [Load] is the one declared under
    [bpose[i]], and the origin of the model with heading 0 when the
    worldfile declares none, in whatever order the properties come. *)
Theorem Load_pose_or_origin `{MB : ModelBase} (N : Z) (L : R)
    (lens : list (Z * R)) (poses : list (Z * Pose)) (wf : Worldfile)
    (m : ModelBumper) :
  1 ≤ N < 2 ^ 31 → NoDup lens.*1 → NoDup poses.*1 →
  wf ≡ₚ bumper_properties N L lens poses →
  ∃ m' bs,
    Load wf m = Ok m' ∧ bumpers m' = Some bs ∧
    (∀ i p, 0 ≤ i < N → (i, p) ∈ poses →
            cfg_pose <$> bs !! Z.to_nat i = Some p) ∧
    (∀ i, 0 ≤ i < N → i ∉ poses.*1 →
          cfg_pose <$> bs !! Z.to_nat i = Some (mkPose 0 0 0 0)).
Proof.
  intros HN Hl Hp Hperm.
  destruct (Load_bumper_properties N L lens poses wf m HN Hl Hp Hperm)
    as (bs & Hrun & Hlen & Hcells).
  eexists _, bs. split; [exact Hrun|]. simpl. split; [done|]. split.
  - intros i p Hi Hin. rewrite Hcells by lia. simpl. f_equal.
    unfold ReadTupleLength, ReadTupleAngle. rewrite bpose_key_small by lia.
    rewrite (bumper_properties_pose N L lens poses i p) by done.
    now destruct p.
  - intros i Hi Hnin. rewrite Hcells by lia. simpl. f_equal.
    unfold ReadTupleLength, ReadTupleAngle. rewrite bpose_key_small by lia.
    now rewrite bumper_properties_no_pose.
Qed.

Lemma Load_pose_or_origin_witness :
  ∃ m' bs,
    @Load plain_base jumbled_properties new_bumper = Ok m' ∧
    bumpers m' = Some bs ∧
    cfg_pose <$> bs !! 1%nat = Some (mkPose 1 0 0 0) ∧
    cfg_pose <$> bs !! 2%nat = Some (mkPose 0 0 0 0).
Proof.
  destruct (@Load_pose_or_origin plain_base 3 0.1
              [(0, 0.2%R); (2, 0.3%R)] [(1, mkPose 1 0 0 0)]
              jumbled_properties new_bumper)
    as (m' & bs & Hrun & Hbs & Hdecl & Horigin).
  - lia.
  - apply NoDup_ListNoDup. repeat constructor; simpl; intuition lia.
  - apply NoDup_ListNoDup. repeat constructor; simpl; intuition lia.
  - symmetry. unfold jumbled_properties, bumper_properties.
    cbn [fmap list_fmap app].
    apply (@Permutation_cons_app _ _ [_; _; _; _] []). cbn [app].
    apply (@Permutation_cons_app _ _ [_] [_; _]). cbn [app].
    apply (@Permutation_cons_app _ _ [_; _] []). reflexivity.
  - exists m', bs. split; [exact Hrun|]. split; [exact Hbs|]. split.
    + apply (Hdecl 1 (mkPose 1 0 0 0)); [lia | left].
    + apply (Horigin 2); [lia|]. simpl. rewrite not_elem_of_cons.
      split; [lia | apply not_elem_of_nil].
Defined.

(** ** More about Update *)

(** X5.  An [Update] that returns has left the transducer array, the
    count, the power draw and the identity of the model alone; it has
    allocated at most one buffer, kept the buffer it found, cast one ray
    per transducer when there is an array and none otherwise, and not
    touched any cell at or beyond the count. *)
Theorem Update_frame `{MB : ModelBase} `{EN : Engine} (m m' : ModelBumper)
    (casts : list cast) :
  Update m = Ok (m', casts) →
  bumpers m' = bumpers m ∧ bumper_count m' = bumper_count m ∧
  watts m' = watts m ∧ self m' = self m ∧
  base m' = Model_Update (base m) ∧
  (heap_next m ≤ heap_next m' ≤ S (heap_next m))%nat ∧
  (∀ buf, samples m = Some buf →
     heap_next m' = heap_next m ∧
     ∃ cells, samples m' = Some (mkBuffer (buf_id buf) cells) ∧
       length cells = length (buf_cells buf) ∧
       ∀ k, (Z.to_nat (bumper_count m) ≤ k)%nat →
            cells !! k = buf_cells buf !! k) ∧
  length casts = match bumpers m with
                 | Some _ => Z.to_nat (bumper_count m)
                 | None => 0%nat
                 end.
Proof.
  intros Hrun. destruct (decide (bumper_count m < 1)) as [Hc|Hc].
  { rewrite Update_unconfigured in Hrun by now right.
    injection Hrun as <- <-. simpl. split_and!; try done; try lia.
    - intros [id cells] Hs. split; [done|]. exists cells. done.
    - destruct (bumpers m); simpl; [lia | done]. }
  apply Update_returns in Hrun as [(Hnone & -> & ->) | Hsome]; [| |lia].
  { simpl. rewrite Hnone. split_and!; try done; try lia.
    intros [id cells] Hs. split; [done|]. exists cells. done. }
  destruct Hsome as (bs & cells & Hbs & Hlb & Hlc & -> & -> & Hl & Hk).
  simpl. rewrite Hbs. split_and!; try done.
  - destruct (samples m); lia.
  - destruct (samples m); lia.
  - intros buf Hs. rewrite Hs. split; [done|]. exists cells.
    unfold cells_before in *. rewrite Hs in *. split; [done|].
    split; [done|]. intros k Hge. rewrite Hk, decide_False by lia. done.
  - rewrite length_fmap, length_take. lia.
Qed.

Lemma Update_frame_witness :
  bumpers bumper_after_hit = bumpers started_bumper ∧
  heap_next bumper_after_hit = 1%nat.
Proof.
  destruct (@Update_frame plain_base (world_engine wall_world)
              started_bumper bumper_after_hit _ scenario_A)
    as (Hb & _ & _ & _ & _ & Hn & _).
  split; [exact Hb | reflexivity].
Defined.

Section SameWorld.
Context `{MB : ModelBase} `{EN : Engine}.

(** Sampling a cell twice in the same world is sampling it once. *)
Lemma sensed_twice me b s : sensed me b (sensed me b s) = sensed me b s.
Proof. unfold sensed. simpl. now destruct (ray_mod (probe_ray me b)). Qed.

End SameWorld.

(** X6.  In an unchanged world a second [Update] issues the same casts
    and leaves the sample buffer exactly as the first did, allocating
    nothing. *)
Theorem Update_same_world_twice `{MB : ModelBase} `{EN : Engine}
    (m m1 : ModelBumper) (casts : list cast) :
  Update m = Ok (m1, casts) →
  ∃ m2, Update m1 = Ok (m2, casts) ∧ samples m2 = samples m1 ∧
        heap_next m2 = heap_next m1 ∧ bumpers m2 = bumpers m1.
Proof.
  intros Hrun. destruct (decide (bumper_count m < 1)) as [Hc|Hc].
  { rewrite Update_unconfigured in Hrun by now right.
    injection Hrun as <- <-. eexists.
    split; [apply Update_unconfigured; now right | done]. }
  apply Update_returns in Hrun as [(Hnone & -> & ->) | Hsome]; [| |lia].
  { eexists. split; [apply Update_unconfigured; now left | done]. }
  destruct Hsome as (bs & cells & Hbs & Hlb & Hlc & -> & -> & Hl & Hk).
  match goal with |- ∃ _, Update ?x = _ ∧ _ => set (m1 := x) end.
  destruct (Update_reuses m1 bs (mkBuffer (match samples m with
                                           | Some buf => buf_id buf
                                           | None => heap_next m
                                           end) cells))
    as (cells2 & Hrun2 & Hl2 & Hk2);
    [reflexivity | simpl; lia | simpl; lia | reflexivity | simpl; lia |].
  assert (cells2 = cells) as ->.
  { apply list_eq. intros k. rewrite Hk2. simpl. case_decide as Hlt; [|done].
    rewrite Hk, decide_True by done. unfold sensed_cell.
    rewrite Hk, decide_True by done. unfold sensed_cell.
    destruct (bs !! k) as [b|]; [|done].
    destruct (cells_before m !! k) as [s0|]; [|done].
    now rewrite sensed_twice. }
  eexists. split; [exact Hrun2|]. done.
Qed.

Lemma Update_same_world_twice_witness :
  ∃ m2, @Update plain_base (world_engine wall_world) bumper_after_hit
        = Ok (m2, [mkCast (mkPose 0 (-0.1) 0 (PI / 2)) 0.2]) ∧
        samples m2 = samples bumper_after_hit.
Proof.
  destruct (@Update_same_world_twice plain_base (world_engine wall_world)
              started_bumper bumper_after_hit _ scenario_A)
    as (m2 & Hrun & Hs & _).
  exists m2. split; [exact Hrun | exact Hs].
Defined.

(** X7.  [Shutdown] throws the samples away: the first [Update] after a
    restart allocates a new buffer, in which the cell of a transducer
    whose cast misses holds no point, whatever the buffer before the
    [Shutdown] held. *)
Theorem restart_forgets_samples `{MB : ModelBase} `{EN : Engine}
    (m : ModelBumper) (bs : list bumper_config_t) :
  bumpers m = Some bs → 1 ≤ bumper_count m →
  length bs = Z.to_nat (bumper_count m) →
  ∃ m' casts cells,
    Update (Startup (Shutdown m)) = Ok (m', casts) ∧
    samples m' = Some (mkBuffer (heap_next m) cells) ∧
    heap_next m' = S (heap_next m) ∧
    length cells = Z.to_nat (bumper_count m) ∧
    ∀ t s, cells !! t = Some s → hit s = None → hit_point s = None.
Proof.
  intros Hbs Hc Hlen.
  destruct (Update_allocates (Startup (Shutdown m)) bs)
    as (cells & Hrun & Hl & Hk).
  - destruct m as [me b w n bs' [buf|] nx]; simpl in *; done.
  - destruct m as [me b w n bs' [buf|] nx]; simpl in *; done.
  - destruct m as [me b w n bs' [buf|] nx]; simpl in *; lia.
  - destruct m as [me b w n bs' [buf|] nx]; simpl in *; done.
  - assert (heap_next (Startup (Shutdown m)) = heap_next m ∧
            bumper_count (Startup (Shutdown m)) = bumper_count m) as [Hn Hcount]
      by (destruct m as [me b w n bs' [buf|] nx]; done).
    rewrite Hn, Hcount in *.
    eexists _, _, cells. split; [exact Hrun|]. simpl.
    split; [done|]. split; [done|]. split; [done|].
    intros t s Hs Hmiss.
    assert (t < Z.to_nat (bumper_count m))%nat as Ht
      by (apply lookup_lt_Some in Hs; lia).
    rewrite Hk in Hs by done.
    destruct (bs !! t) as [b|]; [|done]. injection Hs as <-.
    unfold sensed in *. simpl in *. now rewrite Hmiss.
Qed.

Lemma restart_forgets_samples_witness :
  ∃ m' casts cells,
    @Update plain_base (world_engine empty_world)
      (Startup (Shutdown bumper_after_hit)) = Ok (m', casts) ∧
    samples m' = Some (mkBuffer 1 cells) ∧ length cells = 1%nat.
Proof.
  destruct (@restart_forgets_samples plain_base (world_engine empty_world)
              bumper_after_hit [strip])
    as (m' & casts & cells & Hrun & Hs & _ & Hl & _);
    [reflexivity | simpl; lia | reflexivity |].
  exists m', casts, cells. split; [exact Hrun|]. split; [exact Hs | exact Hl].
Defined.

(** ** Print and DataVisualize *)

Lemma Print_loop_null n i out :
  (1 ≤ n)%nat → Print_loop n i None out = inl NullDereference.
Proof. destruct n; [lia | done]. Qed.

Lemma Print_loop_returns n i buf out :
  (i + n ≤ length (buf_cells buf))%nat →
  Print_loop n i (Some buf) out =
  inr (out ++ (hit_digit <$> take n (drop i (buf_cells buf)))).
Proof.
  revert i out. induction n as [|n IH]; intros i out Hn; simpl.
  - now rewrite app_nil_r.
  - destruct (lookup_lt_is_Some_2 (buf_cells buf) i) as [s Hs]; [lia|].
    rewrite Hs. rewrite IH by lia. f_equal.
    rewrite <- app_assoc. f_equal. simpl.
    rewrite (drop_S _ _ _ Hs). done.
Qed.

Lemma Print_loop_overruns n i buf out :
  (i ≤ length (buf_cells buf) < i + n)%nat →
  Print_loop n i (Some buf) out = inl PastTheEnd.
Proof.
  revert i out. induction n as [|n IH]; intros i out Hn; simpl; [lia|].
  destruct (buf_cells buf !! i) as [s|] eqn:Hs; [|done].
  apply lookup_lt_Some in Hs. apply IH. lia.
Qed.

Lemma DataVisualize_loop_returns n t buf bs out :
  (t + n ≤ length (buf_cells buf))%nat → (t + n ≤ length bs)%nat →
  DataVisualize_loop n t (Some buf) (Some bs) out =
  inr (out ++ mjoin (zip_with draw_transducer (take n (drop t bs))
                                              (take n (drop t (buf_cells buf))))).
Proof.
  revert t out. induction n as [|n IH]; intros t out Hc Hb; simpl.
  - now rewrite app_nil_r.
  - destruct (lookup_lt_is_Some_2 (buf_cells buf) t) as [s Hs]; [lia|].
    destruct (lookup_lt_is_Some_2 bs t) as [b Hbt]; [lia|].
    rewrite Hs, Hbt. rewrite IH by lia. f_equal.
    rewrite (drop_S _ _ _ Hs), (drop_S _ _ _ Hbt). simpl.
    now rewrite <- app_assoc.
Qed.

Lemma DataVisualize_loop_overruns n t buf bs out :
  (t ≤ length (buf_cells buf) < t + n)%nat → (t + n ≤ length bs)%nat →
  DataVisualize_loop n t (Some buf) (Some bs) out = inl PastTheEnd.
Proof.
  revert t out. induction n as [|n IH]; intros t out Hc Hb; simpl; [lia|].
  destruct (buf_cells buf !! t) as [s|] eqn:Hs; [|done].
  apply lookup_lt_Some in Hs.
  destruct (lookup_lt_is_Some_2 bs t) as [b ->]; [lia|].
  apply IH; lia.
Qed.

(** Blocks of six calls, each a push, four calls that leave the stack
    alone, and a pop. *)
Lemma matrix_depth_draw d bs cells later :
  matrix_depth d (mjoin (zip_with draw_transducer bs cells) ++ later)
  = matrix_depth d later.
Proof.
  revert cells. induction bs as [|b bs IH]; intros [|s cells]; simpl; try done.
  destruct (hit s); simpl; apply IH.
Qed.

Lemma length_draw bs cells :
  length (mjoin (zip_with draw_transducer bs cells))
  = (6 * length (zip_with draw_transducer bs cells))%nat.
Proof.
  revert cells. induction bs as [|b bs IH]; intros [|s cells]; simpl; try done.
  rewrite IH. lia.
Qed.

Lemma draw_block bs cells t b s :
  bs !! t = Some b → cells !! t = Some s →
  take 6 (drop (6 * t) (mjoin (zip_with draw_transducer bs cells)))
  = draw_transducer b s.
Proof.
  revert cells t. induction bs as [|b0 bs IH]; intros [|s0 cells] [|t];
    simpl; try done.
  - intros [= ->] [= ->]. done.
  - intros Hb Hs. replace (t + S (t + S (t + S (t + S (t + S (t + 0))))))%nat
      with (5 + 6 * t)%nat by lia. simpl. now apply IH.
Qed.

(** X8.  [Print] reads [samples] without testing it.  On a model with a
    positive count and no sample buffer (loaded and not yet updated, or
    shut down) it reads through the null pointer, where [DataVisualize]
    draws nothing; only with a count of 0 does it write its empty
    line. *)
Theorem Print_needs_samples `{MB : ModelBase} (m : ModelBumper)
    (show : bool) :
  1 ≤ bumper_count m →
  Print (Shutdown m) = inl NullDereference ∧
  DataVisualize show (Shutdown m) = inr [] ∧
  (samples m = None →
   Print m = inl NullDereference ∧ DataVisualize show m = inr []) ∧
  ∀ me b w next, Print (ModelBumper_new me b w next)
    = inr [String (Ascii.ascii_of_nat 9) "Bumpers[ ";
           " ]" +:+ String (Ascii.ascii_of_nat 10) ""].
Proof.
  intros Hc.
  assert (∀ x : ModelBumper, 1 ≤ bumper_count x → samples x = None →
            Print x = inl NullDereference ∧ DataVisualize show x = inr [])
    as Hnull.
  { intros x Hx Hs. unfold Print, DataVisualize. rewrite Hs.
    rewrite Print_loop_null by lia. done. }
  assert (samples (Shutdown m) = None ∧
          bumper_count (Shutdown m) = bumper_count m) as [Hs Hn]
    by (destruct m as [me b w n bs [buf|] nx]; done).
  destruct (Hnull (Shutdown m)) as [H1 H2]; [lia | done |].
  split; [done|]. split; [done|]. split; [now apply Hnull | done].
Qed.

Lemma Print_needs_samples_witness :
  @Print plain_base (Shutdown bumper_after_hit) = inl NullDereference ∧
  @DataVisualize plain_base true (Shutdown bumper_after_hit) = inr [].
Proof.
  destruct (@Print_needs_samples plain_base bumper_after_hit true)
    as (Hp & Hd & _); [simpl; lia|].
  split; [exact Hp | exact Hd].
Defined.

(** X9.  After an [Update] of a model with an array, [Print] returns; it
    writes the opening, one digit per cast of that [Update], in order,
    and the closing, and the digit is 1 exactly when the cast returned a
    hit model. *)
Theorem Print_shows_casts `{MB : ModelBase} `{EN : Engine}
    (m m' : ModelBumper) (casts : list cast) :
  Update m = Ok (m', casts) → is_Some (bumpers m) →
  Print m' =
    inr ([String (Ascii.ascii_of_nat 9) "Bumpers[ "] ++
         ((λ c, match ray_mod (Raytrace (self m) (cast_pose c) (cast_range c)
                                        bumper_match) with
                | Some _ => "1 "
                | None => "0 "
                end) <$> casts) ++
         [" ]" +:+ String (Ascii.ascii_of_nat 10) ""]).
Proof.
  intros Hrun [bs0 Hbs0]. destruct (decide (bumper_count m < 1)) as [Hc|Hc].
  { rewrite Update_unconfigured in Hrun by now right.
    injection Hrun as <- <-. unfold Print. simpl.
    replace (Z.to_nat (bumper_count m)) with 0%nat by lia. done. }
  apply Update_returns in Hrun as [(Hnone & _) | Hsome]; [congruence | | lia].
  destruct Hsome as (bs & cells & Hbs & Hlb & Hlc & -> & -> & Hl & Hk).
  unfold Print. simpl. rewrite Print_loop_returns by (simpl; lia).
  cbn [buf_cells]. rewrite <- app_assoc. simpl. do 2 f_equal. f_equal.
  rewrite <- list_fmap_compose. apply list_eq. intros k.
  rewrite !list_lookup_fmap, !lookup_take, drop_0.
  case_decide as Hlt; [|done].
  rewrite Hk, decide_True by done. unfold sensed_cell.
  destruct (lookup_lt_is_Some_2 bs k) as [b ->]; [lia|].
  destruct (lookup_lt_is_Some_2 (cells_before m) k) as [s0 ->]; [lia|].
  done.
Qed.

Lemma Print_shows_casts_witness :
  @Print plain_base bumper_after_hit =
    inr [String (Ascii.ascii_of_nat 9) "Bumpers[ "; "1 ";
         " ]" +:+ String (Ascii.ascii_of_nat 10) ""].
Proof.
  rewrite (@Print_shows_casts plain_base (world_engine wall_world)
             started_bumper bumper_after_hit _ scenario_A);
    [|now eexists].
  cbn [fmap list_fmap app cast_pose cast_range self started_bumper Raytrace
       world_engine].
  now rewrite wall_world_ray.
Defined.

(** X10.  On a model whose arrays have the size the count says,
    [DataVisualize] reads inside both arrays and leaves the matrix stack
    as it found it.  With the option off, or without a buffer, it issues
    no call; otherwise it issues six calls per transducer, the second of
    which sets red when the cell holds a hit and green when it does not,
    and the fifth of which draws the strip, 0.02 thick on a hit and 0.01
    otherwise. *)
Theorem DataVisualize_draws_cells `{MB : ModelBase} (show : bool)
    (m : ModelBumper) :
  sized m →
  ∃ calls,
    DataVisualize show m = inr calls ∧
    matrix_depth 0 calls = Some 0%nat ∧
    (show = false ∨ samples m = None → calls = []) ∧
    ∀ bs buf, show = true → bumpers m = Some bs → samples m = Some buf →
      length calls = (6 * length bs)%nat ∧
      ∀ t b s, bs !! t = Some b → buf_cells buf !! t = Some s →
        calls !! (6 * t + 1)%nat =
          Some (match hit s with
                | Some _ => glColor3f 1 0 0
                | None => glColor3f 0 1 0
                end) ∧
        calls !! (6 * t + 4)%nat =
          Some (match hit s with
                | Some _ => glRectf (- cfg_length b / 2) (- (0.02) / 2)
                                    (cfg_length b / 2) (0.02 / 2)
                | None => glRectf (- cfg_length b / 2) (- (0.01) / 2)
                                  (cfg_length b / 2) (0.01 / 2)
                end)%R.
Proof.
  unfold sized, DataVisualize. intros Hm.
  destruct (samples m) as [buf|] eqn:Hs.
  2:{ exists []. split; [done|]. split; [done|]. split; [done|]. done. }
  destruct (bumpers m) as [bs|] eqn:Hbs; [|done].
  destruct Hm as (Hc & Hlen & Hbuf). specialize (Hbuf buf eq_refl).
  rewrite decide_False by lia. destruct show; cbn [negb].
  2:{ exists []. split; [done|]. split; [done|]. split; [done|]. done. }
  rewrite DataVisualize_loop_returns by lia. cbn [app].
  rewrite !drop_0, !take_ge by lia.
  eexists. split; [done|]. split.
  { rewrite <- (app_nil_r (mjoin _)). now rewrite matrix_depth_draw. }
  split; [intros [|]; done|].
  intros bs' buf' _ [= <-] [= <-]. split.
  { rewrite length_draw, length_zip_with. lia. }
  intros t b s Hb Hcell.
  pose proof (draw_block bs (buf_cells buf) t b s Hb Hcell) as Hblock.
  assert (∀ j, (j < 6)%nat →
            mjoin (zip_with draw_transducer bs (buf_cells buf)) !! (6 * t + j)%nat
            = draw_transducer b s !! j) as Hj.
  { intros j Hlt. rewrite <- Hblock.
    rewrite lookup_take, decide_True by lia. now rewrite lookup_drop. }
  rewrite (Hj 1%nat), (Hj 4%nat) by lia.
  unfold draw_transducer. destruct (hit s); split; reflexivity.
Qed.

Lemma DataVisualize_draws_cells_witness :
  ∃ calls, @DataVisualize plain_base true bumper_after_hit = inr calls ∧
           matrix_depth 0 calls = Some 0%nat ∧ length calls = 6%nat ∧
           calls !! 1%nat = Some (glColor3f 1 0 0).
Proof.
  destruct (@DataVisualize_draws_cells plain_base true bumper_after_hit)
    as (calls & Hrun & Hdepth & _ & Hdraw).
  - unfold sized, bumper_after_hit. cbn [bumpers bumper_count samples].
    split; [lia|]. split; [reflexivity|]. now intros buf [= <-].
  - destruct (Hdraw [strip] _ eq_refl eq_refl eq_refl) as [Hl Hcalls].
    destruct (Hcalls 0%nat strip _ eq_refl eq_refl) as [Hcolor _].
    exists calls. split; [exact Hrun|]. split; [exact Hdepth|].
    split; [exact Hl | exact Hcolor].
Defined.

(** ** Reloading a started model *)

(** X11.  A [Load] that raises the count above the number of cells of the
    sample buffer the model holds keeps that buffer; from then on
    [Update] stores past its end, and [Print] and [DataVisualize] read
    past its end. *)
Theorem reload_with_more_overruns `{MB : ModelBase} `{EN : Engine}
    (wf : Worldfile) (N : Z) (m : ModelBumper) (buf : sample_buffer) :
  GetProperty wf "bcount" = Some (WfInt N) → 1 ≤ N < 2 ^ 31 →
  samples m = Some buf → (length (buf_cells buf) < Z.to_nat N)%nat →
  ∃ m',
    Load wf m = Ok m' ∧ bumper_count m' = N ∧ samples m' = Some buf ∧
    Update m' = Fault OutOfBounds ∧
    Print m' = inl PastTheEnd ∧
    DataVisualize true m' = inl PastTheEnd.
Proof.
  intros Hget HN Hs Hshort.
  assert (to_uint32 N = N) as Hu
    by (apply to_uint32_small; unfold UINT32_MOD; lia).
  destruct (Load_count wf m N) as (bs & Hload & Hlen & _); [done | lia |].
  rewrite Hu in *. eexists. split; [exact Hload|]. simpl.
  split; [done|]. split; [done|]. split; [|split].
  - apply (Update_overruns _ bs buf); simpl; try done; lia.
  - unfold Print. simpl. rewrite Hs.
    rewrite Print_loop_overruns by lia. done.
  - unfold DataVisualize. simpl. rewrite Hs.
    rewrite decide_False by lia. simpl.
    rewrite DataVisualize_loop_overruns by lia. done.
Qed.

Lemma reload_with_more_overruns_witness :
  ∃ m', @Load plain_base three_bumpers bumper_after_hit = Ok m' ∧
        @Update plain_base (world_engine empty_world) m' = Fault OutOfBounds ∧
        Print m' = inl PastTheEnd.
Proof.
  destruct (@reload_with_more_overruns plain_base (world_engine empty_world)
              three_bumpers 3 bumper_after_hit
              (mkBuffer 0 [mkSample (Some wall) (Some (mkPoint 0 (-0.05)))]))
    as (m' & Hload & _ & _ & Hrun & Hprint & _);
    [reflexivity | lia | reflexivity | simpl; lia |].
  exists m'. split; [exact Hload|]. split; [exact Hrun | exact Hprint].
Defined.

(** X12.  A [Load] whose count does not exceed the number of cells of the
    sample buffer the model holds keeps that buffer too.  The next
    [Update] returns with the same buffer object at its old size,
    allocates nothing, casts as many rays as the new count, and leaves
    the cells from the new count on as earlier ticks wrote them. *)
Theorem reload_with_fewer_keeps_buffer `{MB : ModelBase} `{EN : Engine}
    (wf : Worldfile) (N : Z) (m : ModelBumper) (buf : sample_buffer) :
  GetProperty wf "bcount" = Some (WfInt N) → 1 ≤ N < 2 ^ 31 →
  samples m = Some buf → (Z.to_nat N ≤ length (buf_cells buf))%nat →
  ∃ m0 m1 casts cells,
    Load wf m = Ok m0 ∧ Update m0 = Ok (m1, casts) ∧
    samples m1 = Some (mkBuffer (buf_id buf) cells) ∧
    heap_next m1 = heap_next m ∧
    length cells = length (buf_cells buf) ∧
    length casts = Z.to_nat N ∧
    ∀ k, (Z.to_nat N ≤ k)%nat → cells !! k = buf_cells buf !! k.
Proof.
  intros Hget HN Hs Hfits.
  assert (to_uint32 N = N) as Hu
    by (apply to_uint32_small; unfold UINT32_MOD; lia).
  destruct (Load_count wf m N) as (bs & Hload & Hlen & _); [done | lia |].
  rewrite Hu in *.
  destruct (Update_reuses
              (set_base (Model_Load wf (base m)) (set_array N (Some bs) m))
              bs buf) as (cells & Hrun & Hl & Hk); simpl; try done; try lia.
  simpl in Hrun, Hk.
  eexists _, _, _, cells. split; [exact Hload|]. split; [exact Hrun|].
  simpl. split; [done|]. split; [done|]. split; [done|]. split.
  - rewrite length_fmap, length_take. lia.
  - intros k Hge. rewrite Hk, decide_False by lia. done.
Qed.

Lemma reload_with_fewer_keeps_buffer_witness :
  ∃ m0 m1 casts cells,
    @Load plain_base one_bumper
      (mkBumper plain_base bumper_model tt BUMPER_WATTS 3
         (Some [strip; strip; strip]) (Some three_cells) 5) = Ok m0 ∧
    @Update plain_base (world_engine empty_world) m0 = Ok (m1, casts) ∧
    samples m1 = Some (mkBuffer 4 cells) ∧ length cells = 3%nat ∧
    cells !! 2%nat = Some (mkSample (Some wall) (Some (mkPoint 1 1))).
Proof.
  destruct (@reload_with_fewer_keeps_buffer plain_base
              (world_engine empty_world) one_bumper 1
              (mkBumper plain_base bumper_model tt BUMPER_WATTS 3
                 (Some [strip; strip; strip]) (Some three_cells) 5)
              three_cells)
    as (m0 & m1 & casts & cells & Hload & Hrun & Hs & _ & Hl & _ & Htail);
    [reflexivity | lia | reflexivity | simpl; lia |].
  exists m0, m1, casts, cells. split; [exact Hload|]. split; [exact Hrun|].
  split; [exact Hs|]. split; [exact Hl|].
  rewrite Htail by (simpl; lia). reflexivity.
Defined.

(** ** From the worldfile to the rays *)

(** X13.  A transducer for which the worldfile declares neither a pose nor
    a length of its own is probed, in the [Update] after [Load] and
    [Startup], from the point (0, -L/2) of the model with heading
    [PI / 2] over the range [L], the common length. *)
Theorem undeclared_transducer_probe `{MB : ModelBase} `{EN : Engine}
    (N : Z) (L : R) (lens : list (Z * R)) (poses : list (Z * Pose))
    (wf : Worldfile) (me : Model) (b : BaseState) (w : R) (next : nat) :
  1 ≤ N < 2 ^ 31 → NoDup lens.*1 → NoDup poses.*1 →
  wf ≡ₚ bumper_properties N L lens poses →
  ∃ m0 m1 casts,
    Load wf (ModelBumper_new me b w next) = Ok m0 ∧
    Update (Startup m0) = Ok (m1, casts) ∧
    length casts = Z.to_nat N ∧
    ∀ i, 0 ≤ i < N → i ∉ lens.*1 → i ∉ poses.*1 →
      ∃ c, casts !! Z.to_nat i = Some c ∧
           pose_x (cast_pose c) = 0%R ∧
           pose_y (cast_pose c) = (- (L / 2))%R ∧
           pose_a (cast_pose c) = (PI / 2)%R ∧
           cast_range c = L.
Proof.
  intros HN Hl Hp Hperm.
  destruct (Load_bumper_properties N L lens poses wf
              (ModelBumper_new me b w next) HN Hl Hp Hperm)
    as (bs & Hload & Hlen & Hcells).
  eexists. rewrite Hload.
  destruct (Update_runs
    (Startup (set_base (Model_Load wf (base (ModelBumper_new me b w next)))
                (set_array N (Some bs) (ModelBumper_new me b w next)))) bs)
    as (m1 & cells & Hrun & _);
    [reflexivity | simpl; lia | exact Hlen | |].
  { unfold cells_before. simpl. now rewrite length_replicate. }
  exists m1, (probe_cast <$> bs). split; [reflexivity|].
  split; [exact Hrun|]. split; [now rewrite length_fmap|].
  intros i Hi Hnl Hnp. eexists.
  rewrite list_lookup_fmap, Hcells by lia. split; [reflexivity|].
  unfold probe_cast, probe_pose, loaded_transducer,
    ReadTupleLength, ReadTupleAngle, ReadLength.
  rewrite bpose_key_small, blength_key_small by lia.
  rewrite bumper_properties_no_pose, bumper_properties_no_length by done.
  cbn [cast_pose cast_range cfg_pose cfg_length pose_x pose_y pose_a].
  rewrite Rplus_0_l, cos_PI2, sin_PI2.
  split; [lra|]. split; [lra|]. split; reflexivity.
Qed.

Lemma undeclared_transducer_probe_witness :
  ∃ m0 m1 casts c,
    @Load plain_base sparse_properties new_bumper = Ok m0 ∧
    @Update plain_base (world_engine empty_world) (Startup m0) = Ok (m1, casts) ∧
    casts !! 2%nat = Some c ∧
    pose_y (cast_pose c) = (- (0.1 / 2))%R ∧ cast_range c = 0.1%R.
Proof.
  destruct (@undeclared_transducer_probe plain_base (world_engine empty_world)
              3 0.1 [(0, 0.2%R)] [(1, mkPose 1 0 0 0)]
              sparse_properties bumper_model tt 0%R 0)
    as (m0 & m1 & casts & Hload & Hrun & _ & Hprobe).
  - lia.
  - apply NoDup_ListNoDup. repeat constructor; simpl; intuition lia.
  - apply NoDup_ListNoDup. repeat constructor; simpl; intuition lia.
  - reflexivity.
  - destruct (Hprobe 2) as (c & Hc & _ & Hy & _ & Hr).
    + lia.
    + simpl. rewrite not_elem_of_cons. split; [lia | apply not_elem_of_nil].
    + simpl. rewrite not_elem_of_cons. split; [lia | apply not_elem_of_nil].
    + exists m0, m1, casts, c. split; [exact Hload|]. split; [exact Hrun|].
      split; [exact Hc|]. split; [exact Hy | exact Hr].
Defined.

(** ** The heap *)

Section Heap.
Context `{MB : ModelBase}.

Lemma step_heap_held (o : op) (m m' : ModelBumper) :
  step o m = Ok m' → replay (held m) (step_heap o m) = Some (held m').
Proof.
  destruct o as [wf| | |EN]; simpl.
  - intros Hload. unfold Load_heap.
    destruct (Load_keeps_samples wf m m' Hload) as (Hs & _).
    destruct (PropertyExists wf "bcount") eqn:Hex.
    + destruct (Load_configured wf m m' Hload Hex) as (Hpos & _ & bs & Hbs & _).
      assert (to_uint32 (ReadInt wf "bcount" 0) > 0) as Hpos'.
      { destruct (decide (to_uint32 (ReadInt wf "bcount" 0) > 0)); [done|].
        rewrite Load_asserts in Hload; [discriminate | done |].
        pose proof (to_uint32_range (ReadInt wf "bcount" 0)). lia. }
      rewrite decide_True by done. unfold held. rewrite Hs, Hbs.
      destruct (bumpers m); simpl; done.
    + rewrite (Load_no_count wf m Hex) in Hload. now injection Hload as <-.
  - intros [= <-]. unfold held. now destruct m as [me b w n bs sm nx].
  - intros [= <-]. unfold Shutdown_heap, held.
    destruct m as [me b w n bs [buf|] nx]; simpl; [|done].
    now rewrite decide_True.
  - destruct (Update m) as [[m1 casts]|] eqn:Hrun; simpl; [|discriminate].
    intros [= <-]. unfold Update_heap.
    destruct (decide (bumper_count m < 1)) as [Hc|Hc].
    { rewrite Update_unconfigured in Hrun by now right.
      injection Hrun as <- _. destruct (bumpers m); done. }
    apply Update_returns in Hrun as [(Hnone & -> & _) | Hsome]; [| |lia].
    { now rewrite Hnone. }
    destruct Hsome as (bs & cells & Hbs & _ & _ & _ & -> & _).
    rewrite Hbs. unfold held. simpl. rewrite Hbs.
    destruct (samples m); simpl; done.
Qed.

Lemma run_heap_held (ops : list op) (m m' : ModelBumper) es :
  run_heap ops m = Ok (m', es) → replay (held m) es = Some (held m').
Proof.
  revert m es. induction ops as [|o later IH]; intros m es; simpl.
  - now intros [= <- <-].
  - destruct (step o m) as [m1|] eqn:Hstep; simpl; [|discriminate].
    destruct (run_heap later m1) as [[m2 es2]|] eqn:Hrun; simpl;
      [|discriminate].
    intros [= <- <-]. apply step_heap_held in Hstep. apply IH in Hrun.
    revert Hstep Hrun. generalize (step_heap o m) (held m) (held m1).
    intros es1. induction es1 as [|e es1 IHe]; intros h h1; simpl.
    + now intros [= ->].
    + destruct (heap_step h e); simpl; [apply IHe | discriminate].
Qed.

Lemma replay_app h es1 es2 :
  replay h (es1 ++ es2) = (h' ← replay h es1; replay h' es2).
Proof.
  revert h. induction es1 as [|e es1 IH]; intros h; simpl; [done|].
  destruct (heap_step h e); simpl; [apply IH | done].
Qed.

End Heap.

(** X14.  From the constructor through any calls of Load, Startup, Shutdown
    and Update that return, up to and including the destructor, every
    array that [new[]] made is deleted exactly once: no [delete[]] is for
    a block that is not live, no pointer to a live block is overwritten
    by a new one, and after the destructor no block is left. *)
Theorem no_leak_no_double_delete `{MB : ModelBase} (ops : list op)
    (me : Model) (b : BaseState) (w : R) (next : nat)
    (m : ModelBumper) (es : list heap_event) :
  run_heap ops (ModelBumper_new me b w next) = Ok (m, es) →
  replay (mkLive false None) (es ++ ModelBumper_delete m)
  = Some (mkLive false None).
Proof.
  intros Hrun. apply run_heap_held in Hrun. rewrite replay_app.
  change (held (ModelBumper_new me b w next)) with (mkLive false None) in Hrun.
  rewrite Hrun. simpl. unfold ModelBumper_delete, held.
  destruct (bumpers m), (samples m); simpl; try done;
    now rewrite decide_True.
Qed.

(** Calls that load counts only while the model is stopped, and only
    positive ones, return. *)
Lemma run_returns `{MB : ModelBase} (ops : list op) (buffered : bool)
    (m : ModelBumper) :
  sized m → (buffered = false → samples m = None) →
  loads_while_stopped buffered ops = true → loads_pass ops = true →
  ∃ m', run ops m = Ok m' ∧ sized m'.
Proof.
  revert buffered m.
  induction ops as [|o later IH]; intros buffered m Hm Hbuf Hops Hpass; simpl.
  - now exists m.
  - apply andb_true_iff in Hpass as [Ho Hpass].
    destruct o as [wf| | |EN]; simpl in *.
    + apply andb_true_iff in Hops as [Hguard Hlater].
      assert (∃ m', Load wf m = Ok m') as [m' Hload].
      { apply orb_true_iff in Ho as [Hk|Hpos].
        - rewrite Load_no_count by now destruct (PropertyExists wf "bcount").
          now eexists.
        - apply bool_decide_eq_true in Hpos.
          destruct (PropertyExists wf "bcount") eqn:Hex.
          + destruct (Load_configures wf m Hex Hpos) as (bs & -> & _).
            now eexists.
          + rewrite Load_no_count by done. now eexists. }
      destruct (sized_Load wf m Hm) as [Hf|(m1 & Hload1 & Hm1 & Hs)].
      { apply orb_true_iff in Hguard as [Hb|Hk].
        - left. apply Hbuf. now destruct buffered.
        - right. now destruct (PropertyExists wf "bcount"). }
      { congruence. }
      rewrite Hload1. simpl. apply (IH buffered); [done | | done | done].
      intros Hb. rewrite Hs. now apply Hbuf.
    + apply (IH buffered); [now apply sized_Startup | | done | done].
      intros Hb. destruct m as [me b w n bs sm nx]. simpl. now apply Hbuf.
    + destruct (sized_Shutdown m Hm) as [Hm' Hs].
      apply (IH false); done.
    + destruct (@sized_Update MB EN m Hm) as (m' & casts & -> & Hm').
      simpl. apply (IH true); done.
Qed.

Lemma run_heap_of_run `{MB : ModelBase} (ops : list op) (m m' : ModelBumper) :
  run ops m = Ok m' → ∃ es, run_heap ops m = Ok (m', es).
Proof.
  revert m. induction ops as [|o later IH]; intros m; simpl.
  - intros [= <-]. now eexists.
  - destruct (step o m) as [m1|]; simpl; [|discriminate].
    intros Hrun. destruct (IH m1 Hrun) as [es ->]. simpl. now eexists.
Qed.

Lemma no_leak_no_double_delete_witness :
  ∃ m es,
    @run_heap plain_base quiet_day new_bumper = Ok (m, es) ∧
    replay (mkLive false None) (es ++ ModelBumper_delete m)
    = Some (mkLive false None).
Proof.
  destruct (@run_returns plain_base quiet_day false new_bumper)
    as (m & Hrun & _); [reflexivity | reflexivity | reflexivity | reflexivity |].
  destruct (run_heap_of_run quiet_day new_bumper m Hrun) as [es Hheap].
  exists m, es. split; [exact Hheap|].
  exact (@no_leak_no_double_delete plain_base quiet_day bumper_model tt 0%R 0
           m es Hheap).
Defined.

(** ** The flag source *)

Lemma Source_callbacks_push (color : Type)
    (pack : R → R → R → R → color) (c : Z) (n : nat) :
  0 ≤ c →
  Source.callbacks color pack (seqZ (c + 1) (Z.of_nat n))
  = replicate (Z.to_nat ((c + Z.of_nat n) / 200 - c / 200))
              (Source.PushFlag (Source.new_flag color pack)).
Proof.
  revert c. induction n as [|n IH]; intros c Hc.
  - simpl. now rewrite Z.add_0_r, Z.sub_diag.
  - rewrite Nat2Z.inj_succ, seqZ_cons by lia.
    replace (Z.pred (Z.succ (Z.of_nat n))) with (Z.of_nat n) by lia.
    replace (Z.succ (c + 1)) with (c + 1 + 1) by lia.
    cbn [Source.callbacks Source.Update fst snd].
    rewrite (decide_True (P := 0 = 0)) by done. rewrite IH by lia.
    unfold Source.INTERVAL.
    replace (c + Z.succ (Z.of_nat n)) with (c + 1 + Z.of_nat n) by lia.
    assert (c / 200 ≤ (c + 1) / 200 ≤ (c + 1 + Z.of_nat n) / 200) as Hmono.
    { split; apply Z.div_le_mono; lia. }
    case_decide as Hmod.
    + assert ((c + 1) / 200 = c / 200 + 1) as Hq
        by (Z.div_mod_to_equations; lia).
      replace (Z.to_nat ((c + 1 + Z.of_nat n) / 200 - c / 200))
        with (S (Z.to_nat ((c + 1 + Z.of_nat n) / 200 - (c + 1) / 200)))
        by lia.
      done.
    + assert ((c + 1) / 200 = c / 200) as Hq
        by (Z.div_mod_to_equations; lia).
      now rewrite Hq.
Qed.

(** X15.  The flag source pushes five flags when it is initialised and
    registers its callback once; called at every update of the world, the
    callback pushes one more flag at each update whose count is a
    multiple of 200 and makes no other call, so that after the updates
    [c + 1, ..., c + n] the model has received [5 + (c + n) / 200 - c / 200]
    flags, all of the packed colour (1, 1, 0, 0) and 0.4 in size. *)
Theorem Source_flags_every_interval (color : Type)
    (pack : R → R → R → R → color) (c : Z) (n : nat) :
  0 ≤ c →
  Source.flags color
    ((Source.Init color pack).1 ++
     Source.callbacks color pack (seqZ (c + 1) (Z.of_nat n)))
  = replicate (5 + Z.to_nat ((c + Z.of_nat n) / 200 - c / 200))
              (Source.mkFlag (pack 1 1 0 0)%R 0.4%R) ∧
  length ((Source.Init color pack).1 ++
          Source.callbacks color pack (seqZ (c + 1) (Z.of_nat n)))
  = (6 + Z.to_nat ((c + Z.of_nat n) / 200 - c / 200))%nat.
Proof.
  intros Hc. rewrite Source_callbacks_push by done.
  generalize (Z.to_nat ((c + Z.of_nat n) / 200 - c / 200)). intros k.
  unfold Source.flags. rewrite omap_app, length_app, length_replicate.
  split; [|reflexivity].
  cbn [Source.Init fst Source.Init_loop app omap list_omap].
  do 5 f_equal. induction k as [|k IH]; simpl; [done | now f_equal].
Qed.

Lemma Source_flags_every_interval_witness :
  Source.flags unit
    ((Source.Init unit (λ _ _ _ _, tt)).1 ++
     Source.callbacks unit (λ _ _ _ _, tt) (seqZ (150 + 1) (Z.of_nat 500)))
  = replicate 8 (Source.mkFlag tt 0.4%R).
Proof.
  destruct (Source_flags_every_interval unit (λ _ _ _ _, tt) 150 500)
    as [Hflags _]; [lia|].
  exact Hflags.
Defined.
